(** * jp_log: a shallow embedding of jp_log.c / jp_log.h

    The logger formats a message into a fixed stack buffer with [vsprintf],
    prints one tagged line with [fprintf], and (for the exit tier) calls
    [exit(EXIT_FAILURE)].  The header wraps the three functions in macros
    that capture the call site, guard on a condition, or compile to a
    [(void)] cast when the tier is switched off.

    Text is a list of characters; the two output streams, the calling
    program's variables and the outcome of a call (normal return, process
    exit, undefined behaviour) are explicit. *)

From Stdlib Require Import ZArith Ascii String DecimalString Lia.
From stdpp Require Import base option list gmap strings.

(* ===================================================================== *)
(** ** Characters and C strings *)
(* ===================================================================== *)

Abbreviation text := (list ascii) (only parsing).

Coercion list_ascii_of_string : string >-> list.

Definition NUL : ascii := "000"%char.
Definition LF : ascii := "010"%char.
(** [\33] in the format literals of jp_log.c (octal 33 = decimal 27). *)
Definition ESC : ascii := "027"%char.

(** What a [const char *] denotes: the characters before the terminator. *)
Fixpoint c_str (s : text) : text :=
  match s with
  | [] => []
  | c :: s' => if Ascii.eqb c NUL then [] else c :: c_str s'
  end.

(* ===================================================================== *)
(** ** The printf engine of <stdio.h>

    The conversions [%s], [%d], [%i], [%c] and [%%] without flags, width
    or precision.  [None] stands for a call whose behaviour the C standard
    leaves undefined: an argument is missing or has the wrong type, or
    the specification is incomplete.  Specifications outside the subset are
    not covered and are given no result either; no statement below rests
    on one. *)
(* ===================================================================== *)

Inductive arg : Type :=
| VInt (z : Z)       (* an [int] *)
| VStr (s : text).   (* a [char *] to a terminated string *)

Abbreviation va_list := (list arg) (only parsing).

Definition decimal (z : Z) : text := NilZero.string_of_int (Z.to_int z).

(** [%c]: the [int] argument converted to [unsigned char]. *)
Definition uchar (z : Z) : ascii := ascii_of_N (Z.to_N (z mod 256)).

Definition convert (conv : ascii) (ap : va_list) : option (text * va_list) :=
  if Ascii.eqb conv "%" then Some (["%"%char], ap)
  else
    match ap with
    | [] => None
    | a :: ap' =>
        if Ascii.eqb conv "s" then
          match a with VStr s => Some (c_str s, ap') | VInt _ => None end
        else if Ascii.eqb conv "d" || Ascii.eqb conv "i" then
          match a with VInt z => Some (decimal z, ap') | VStr _ => None end
        else if Ascii.eqb conv "c" then
          match a with VInt z => Some ([uchar z], ap') | VStr _ => None end
        else None
    end.

Fixpoint format (fmt : text) (ap : va_list) : option text :=
  match fmt with
  | [] => Some []
  | c :: fmt' =>
      if Ascii.eqb c "%" then
        match fmt' with
        | [] => None
        | conv :: rest =>
            match convert conv ap with
            | None => None
            | Some (out, ap') =>
                match format rest ap' with
                | None => None
                | Some tl => Some (out ++ tl)
                end
            end
        end
      else
        match format fmt' ap with
        | None => None
        | Some tl => Some (c :: tl)
        end
  end.

(* ===================================================================== *)
(** ** Character arrays

    A cell is [None] while its value is indeterminate.  Storing outside
    the array and reading an indeterminate cell or past the end have no
    defined result. *)
(* ===================================================================== *)

Abbreviation buffer := (list (option ascii)) (only parsing).

(** [char a[n];] with automatic storage. *)
Definition alloca (n : nat) : buffer := replicate n None.

Fixpoint store_bytes (buf : buffer) (i : nat) (bs : text) : option buffer :=
  match bs with
  | [] => Some buf
  | b :: bs' =>
      if decide (i < length buf)
      then store_bytes (<[i := Some b]> buf) (S i) bs'
      else None
  end.

(** Reading a string out of an array, as [%s] does. *)
Fixpoint load_str (cells : buffer) : option text :=
  match cells with
  | [] => None
  | None :: _ => None
  | Some c :: rest =>
      if Ascii.eqb c NUL then Some []
      else match load_str rest with
           | None => None
           | Some s => Some (c :: s)
           end
  end.

(** [vsprintf(buf, fmt, ap)]: no bound on what is written. *)
Definition vsprintf (buf : buffer) (fmt : text) (ap : va_list) : option buffer :=
  match format (c_str fmt) ap with
  | None => None
  | Some out => store_bytes buf 0 (out ++ [NUL])
  end.

(* ===================================================================== *)
(** ** The process: streams, program variables, outcomes *)
(* ===================================================================== *)

Inductive FILE : Type := stdout | stderr.

Record world : Type := World {
  stdout_bytes : text;             (* everything written to stdout so far *)
  stderr_bytes : text;             (* everything written to stderr so far *)
  stdout_isatty : bool;            (* is stdout a terminal? *)
  stderr_isatty : bool;            (* is stderr a terminal? *)
  vars : gmap string Z;            (* the caller's [int] variables *)
}.

Definition isatty (f : FILE) (w : world) : bool :=
  match f with stdout => stdout_isatty w | stderr => stderr_isatty w end.

Definition written (f : FILE) (w : world) : text :=
  match f with stdout => stdout_bytes w | stderr => stderr_bytes w end.

Definition fwrite (f : FILE) (s : text) (w : world) : world :=
  match f with
  | stdout => World (stdout_bytes w ++ s) (stderr_bytes w)
                    (stdout_isatty w) (stderr_isatty w) (vars w)
  | stderr => World (stdout_bytes w) (stderr_bytes w ++ s)
                    (stdout_isatty w) (stderr_isatty w) (vars w)
  end.

Inductive outcome (A : Type) : Type :=
| Returns (a : A) (w : world)    (* control comes back to the caller *)
| Exits (status : Z) (w : world) (* the process has terminated *)
| Undefined.                     (* no defined behaviour *)

Arguments Returns {A} a w.
Arguments Exits {A} status w.
Arguments Undefined {A}.

Definition M (A : Type) : Type := world -> outcome A.

Definition ret {A} (a : A) : M A := fun w => Returns a w.

Definition bind {A B} (m : M A) (k : A -> M B) : M B :=
  fun w =>
    match m w with
    | Returns a w' => k a w'
    | Exits status w' => Exits status w'
    | Undefined => Undefined
    end.

Declare Scope log_scope.
Delimit Scope log_scope with log.
Bind Scope log_scope with M.
Notation "'let*' x := e 'in' k" := (bind e (fun x => k))
  (at level 10, x name, e at level 100, k at level 200) : log_scope.
Notation "e >> k" := (bind e (fun _ => k))
  (at level 90, right associativity) : log_scope.
Local Open Scope log_scope.

Definition defined {A} (o : option A) : M A :=
  fun w => match o with Some a => Returns a w | None => Undefined end.

(** <stdlib.h> *)
Definition EXIT_SUCCESS : Z := 0.
Definition EXIT_FAILURE : Z := 1.

Definition exit {A} (status : Z) : M A := fun w => Exits status w.

(** [fprintf(f, fmt, ...)] returns the number of characters written. *)
Definition fprintf (f : FILE) (fmt : text) (ap : va_list) : M Z :=
  let* out := defined (format (c_str fmt) ap) in
  fun w => Returns (Z.of_nat (length out)) (fwrite f out w).

(* ===================================================================== *)
(** ** jp_log.c *)
(* ===================================================================== *)

Definition MSGBUFF_SIZE : nat := 1024.

Definition jpLog__info (file func : text) (line : Z) (msg : text) (ap : va_list)
  : M unit :=
  let msgbuff := alloca MSGBUFF_SIZE in
  let* msgbuff := defined (vsprintf msgbuff msg ap) in
  let* rendered := defined (load_str msgbuff) in
  fprintf stdout
    ("[" ++ ESC :: "[34;1mINFO" ++ ESC :: "[0m][%s][%s][%d]: %s" ++ [LF])
    [VStr file; VStr func; VInt line; VStr rendered] >>
  ret tt.

Definition jpLog__warn (file func : text) (line : Z) (msg : text) (ap : va_list)
  : M unit :=
  let msgbuff := alloca MSGBUFF_SIZE in
  let* msgbuff := defined (vsprintf msgbuff msg ap) in
  let* rendered := defined (load_str msgbuff) in
  fprintf stderr
    ("[" ++ ESC :: "[33;1mWARN" ++ ESC :: "[0m][%s][%s][%d]: %s" ++ [LF])
    [VStr file; VStr func; VInt line; VStr rendered] >>
  ret tt.

Definition jpLog__exit (file func : text) (line : Z) (msg : text) (ap : va_list)
  : M unit :=
  let msgbuff := alloca MSGBUFF_SIZE in
  let* msgbuff := defined (vsprintf msgbuff msg ap) in
  let* rendered := defined (load_str msgbuff) in
  fprintf stderr
    ("[" ++ ESC :: "[31;1mEXIT" ++ ESC :: "[0m][%s][%s][%d]: %s" ++ [LF])
    [VStr file; VStr func; VInt line; VStr rendered] >>
  exit EXIT_FAILURE.

(* ===================================================================== *)
(** ** jp_log.h

    The macros expand at a call site; the three predefined identifiers they
    paste in are the fields of [call_site].  A condition is an expression
    of the calling program and may change its variables; messages, format
    strings and format arguments are taken as values.  [a ? b : c] tests
    [a] against zero. *)
(* ===================================================================== *)

Record call_site : Type := CallSite {
  __FILE__ : text;
  __func__ : text;
  __LINE__ : Z;
}.

Definition truth (c : Z) : bool := negb (c =? 0)%Z.

(** *** #ifndef JP_LOG_NOINFO *)

Definition jpLog_info (cs : call_site) (msg : text) : M unit :=
  jpLog__info (__FILE__ cs) (__func__ cs) (__LINE__ cs) "%s" [VStr msg].

Definition jpLog_infoIf (cs : call_site) (expr : M Z) (msg : text) : M Z :=
  let* c := expr in
  if truth c then jpLog_info cs msg >> expr else expr.

Definition jpLog_infoFmt (cs : call_site) (fmt : text) (va_args : va_list)
  : M unit :=
  jpLog__info (__FILE__ cs) (__func__ cs) (__LINE__ cs) fmt va_args.

Definition jpLog_infoFmtIf (cs : call_site) (expr : M Z) (fmt : text)
    (va_args : va_list) : M Z :=
  let* c := expr in
  if truth c then jpLog_infoFmt cs fmt va_args >> expr else expr.

(** *** #ifndef JP_LOG_NOWARN *)

Definition jpLog_warn (cs : call_site) (msg : text) : M unit :=
  jpLog__warn (__FILE__ cs) (__func__ cs) (__LINE__ cs) "%s" [VStr msg].

Definition jpLog_warnIf (cs : call_site) (expr : M Z) (msg : text) : M Z :=
  let* c := expr in
  if truth c then jpLog_warn cs msg >> expr else expr.

Definition jpLog_warnFmt (cs : call_site) (fmt : text) (va_args : va_list)
  : M unit :=
  jpLog__warn (__FILE__ cs) (__func__ cs) (__LINE__ cs) fmt va_args.

Definition jpLog_warnFmtIf (cs : call_site) (expr : M Z) (fmt : text)
    (va_args : va_list) : M Z :=
  let* c := expr in
  if truth c then jpLog_warnFmt cs fmt va_args >> expr else expr.

(** *** #ifndef JP_LOG_NOEXIT *)

Definition jpLog_exit (cs : call_site) (msg : text) : M unit :=
  jpLog__exit (__FILE__ cs) (__func__ cs) (__LINE__ cs) "%s" [VStr msg].

Definition jpLog_exitIf (cs : call_site) (expr : M Z) (msg : text) : M Z :=
  let* c := expr in
  if truth c then jpLog_exit cs msg >> expr else expr.

Definition jpLog_exitFmt (cs : call_site) (fmt : text) (va_args : va_list)
  : M unit :=
  jpLog__exit (__FILE__ cs) (__func__ cs) (__LINE__ cs) fmt va_args.

Definition jpLog_exitFmtIf (cs : call_site) (expr : M Z) (fmt : text)
    (va_args : va_list) : M Z :=
  let* c := expr in
  if truth c then jpLog_exitFmt cs fmt va_args >> expr else expr.

(** *** The #else branches: [( (void)(__VA_ARGS__) )]

    The operands become one comma expression: they are evaluated from left
    to right and the value is cast away.  Only a condition can have an
    effect here; nothing is called. *)

Module NOINFO.
Definition jpLog_info (msg : text) : M unit := ret tt.
Definition jpLog_infoIf (expr : M Z) (msg : text) : M unit := expr >> ret tt.
Definition jpLog_infoFmt (fmt : text) (va_args : va_list) : M unit := ret tt.
Definition jpLog_infoFmtIf (expr : M Z) (fmt : text) (va_args : va_list)
  : M unit := expr >> ret tt.
End NOINFO.

Module NOWARN.
Definition jpLog_warn (msg : text) : M unit := ret tt.
Definition jpLog_warnIf (expr : M Z) (msg : text) : M unit := expr >> ret tt.
Definition jpLog_warnFmt (fmt : text) (va_args : va_list) : M unit := ret tt.
Definition jpLog_warnFmtIf (expr : M Z) (fmt : text) (va_args : va_list)
  : M unit := expr >> ret tt.
End NOWARN.

Module NOEXIT.
Definition jpLog_exit (msg : text) : M unit := ret tt.
Definition jpLog_exitIf (expr : M Z) (msg : text) : M unit := expr >> ret tt.
Definition jpLog_exitFmt (fmt : text) (va_args : va_list) : M unit := ret tt.
Definition jpLog_exitFmtIf (expr : M Z) (fmt : text) (va_args : va_list)
  : M unit := expr >> ret tt.
End NOEXIT.

(* ===================================================================== *)
(** ** The documented line format and the vocabulary of the statements *)
(* ===================================================================== *)

Inductive severity : Type := INFO | WARN | EXIT.

Definition tag_name (sev : severity) : text :=
  match sev with INFO => "INFO" | WARN => "WARN" | EXIT => "EXIT" end.

(** Select Graphic Rendition parameters: 34 blue, 33 yellow, 31 red, 1 bold. *)
Definition sgr (sev : severity) : text :=
  match sev with INFO => "34;1" | WARN => "33;1" | EXIT => "31;1" end.

Definition color_on (sev : severity) : text := ESC :: "[" ++ sgr sev ++ "m".
Definition color_off : text := ESC :: "[0m".

Definition colored_tag (sev : severity) : text :=
  color_on sev ++ tag_name sev ++ color_off.

(** [[<TAG>][<file>][<function>][<line>]: <message>] and a newline, for a
    given rendering of the tag. *)
Definition log_line (tag file func : text) (line : Z) (message : text) : text :=
  "[" ++ tag ++ "][" ++ c_str file ++ "][" ++ c_str func ++ "]["
      ++ decimal line ++ "]: " ++ message ++ [LF].

(** The part of the line before the message. *)
Definition prefix (tag file func : text) (line : Z) : text :=
  "[" ++ tag ++ "][" ++ c_str file ++ "][" ++ c_str func ++ "]["
      ++ decimal line ++ "]: ".

(** The text is one line: a newline at its end and nowhere before. *)
Definition one_line (s : text) : Prop :=
  exists body, s = body ++ [LF] /\ LF ∉ body.

(** The rendered message of a call: what [vsprintf] leaves in the buffer,
    provided it fits together with its terminator. *)
Definition renders (fmt : text) (ap : va_list) (m : text) : Prop :=
  exists out, format (c_str fmt) ap = Some out /\
              length out < MSGBUFF_SIZE /\ m = c_str out.

(** A condition that only reads the program's variables. *)
Definition reads (f : gmap string Z -> Z) : M Z :=
  fun w => Returns (f (vars w)) w.

Definition set_vars (vs : gmap string Z) (w : world) : world :=
  World (stdout_bytes w) (stderr_bytes w) (stdout_isatty w) (stderr_isatty w) vs.

(** A condition with an effect on the program's variables: its value is
    [f] of the variables before, and it leaves them as [g] of them. *)
Definition updates (f : gmap string Z -> Z) (g : gmap string Z -> gmap string Z)
  : M Z :=
  fun w => Returns (f (vars w)) (set_vars (g (vars w)) w).

Definition INT_MAX : Z := 2147483647.

(** [n++] on an [int] variable; an unset variable reads as 0, and
    incrementing [INT_MAX] overflows. *)
Definition post_incr (n : string) : M Z :=
  fun w =>
    let v := default 0%Z (vars w !! n) in
    if (v =? INT_MAX)%Z then Undefined
    else updates (fun _ => v) (fun vs => <[n := (v + 1)%Z]> vs) w.

Definition final_world {A} (o : outcome A) : option world :=
  match o with
  | Returns _ w => Some w
  | Exits _ w => Some w
  | Undefined => None
  end.

(** An emission that comes back has not touched the program's variables. *)
Definition keeps_vars (emit : M unit) : Prop :=
  forall w a w', emit w = Returns a w' -> vars w' = vars w.

(** The value of variable [n] when the call is over. *)
Definition final_var {A} (n : string) (o : outcome A) : option Z :=
  match final_world o with
  | Some w => vars w !! n
  | None => None
  end.

(** The tag as the documentation words it: colored when the destination is
    a terminal, bare otherwise. *)
Definition documented_tag (sev : severity) (tty : bool) : text :=
  if tty then colored_tag sev else tag_name sev.

(** Where each tier writes. *)
Definition destination (sev : severity) : FILE :=
  match sev with INFO => stdout | WARN => stderr | EXIT => stderr end.

(** How a call of each tier ends once its line is out. *)
Definition finish (sev : severity) (w : world) : outcome unit :=
  match sev with
  | INFO => Returns tt w
  | WARN => Returns tt w
  | EXIT => Exits EXIT_FAILURE w
  end.

(** The whole behaviour of an emission, read off the rendering: a line
    when the rendering exists and leaves room for the terminator, nothing
    defined otherwise. *)
Definition emission (sev : severity) (file func : text) (line : Z)
    (fmt : text) (ap : va_list) (w : world) : outcome unit :=
  match format (c_str fmt) ap with
  | None => Undefined
  | Some out =>
      if length out <? MSGBUFF_SIZE
      then finish sev
             (fwrite (destination sev)
                (log_line (colored_tag sev) file func line (c_str out)) w)
      else Undefined
  end.

(** Statements one after the other. *)
Fixpoint sequence (stmts : list (M unit)) : M unit :=
  match stmts with
  | [] => ret tt
  | stmt :: rest => stmt >> sequence rest
  end.

(** A plain-message call of some tier at some call site. *)
Record entry : Type := Entry {
  tier : severity;
  site : call_site;
  message : text;
}.

Definition log_entry (e : entry) : M unit :=
  match tier e with
  | INFO => jpLog_info (site e) (message e)
  | WARN => jpLog_warn (site e) (message e)
  | EXIT => jpLog_exit (site e) (message e)
  end.

Definition entry_line (e : entry) : text :=
  log_line (colored_tag (tier e)) (__FILE__ (site e)) (__func__ (site e))
    (__LINE__ (site e)) (c_str (message e)).

Definition same_stream (f g : FILE) : bool :=
  match f, g with
  | stdout, stdout => true
  | stderr, stderr => true
  | _, _ => false
  end.

(** The lines of the entries that go to stream [f], in the order of the
    entries. *)
Fixpoint stream_text (f : FILE) (entries : list entry) : text :=
  match entries with
  | [] => []
  | e :: rest =>
      (if same_stream (destination (tier e)) f then entry_line e else [])
      ++ stream_text f rest
  end.

(** Occurrences of a character. *)
Definition occurrences (c : ascii) (s : text) : nat :=
  length (filter (fun d => d = c) s).

(** What every written line looks like: no NUL inside, a newline at the
    end, 26 characters of brackets, tag and color around the four fields,
    and one newline more than the fields contain. *)
Definition line_shape (file func : text) (line : Z) (m l : text) : Prop :=
  (NUL ∉ l) /\
  last l = Some LF /\
  length l = 26 + length (c_str file) + length (c_str func)
             + length (decimal line) + length m /\
  occurrences LF l = 1 + occurrences LF (c_str file)
                     + occurrences LF (c_str func) + occurrences LF m.

(** Does the text contain a percent sign? *)
Definition has_percent (s : text) : bool := existsb (Ascii.eqb "%") s.

(* ===================================================================== *)
(** ** Inputs for the examples *)
(* ===================================================================== *)

(** A process that has written nothing yet, with both streams redirected
    away from a terminal. *)
Definition redirected : world := World [] [] false false ∅.

(** The same with the variable [n] holding 5. *)
Definition redirected_n5 : world := World [] [] false false {[ "n" := 5%Z ]}.

Definition site_a : call_site := CallSite "a.c" "main" 10.
Definition site_b : call_site := CallSite "b.c" "parse" 22.
Definition site_c : call_site := CallSite "c.c" "init" 5.

(** 2000 characters, for a 1024-byte buffer. *)
Definition long_message : text := replicate 2000 "A"%char.

(** Three messages of a run, and a fatal one. *)
Definition session : list entry :=
  [ Entry INFO site_a "starting";
    Entry WARN site_b "unexpected token";
    Entry INFO site_a "done" ].

Definition fatal : entry := Entry EXIT site_c "unreachable".

(** The condition [(x = 1)]: an assignment, with value 1. *)
Definition assign_x_1 : M Z :=
  updates (fun _ => 1%Z) (fun vs => <["x" := 1%Z]> vs).

(* ===================================================================== *)
(** ** C strings *)
(* ===================================================================== *)

Lemma c_str_no_NUL (s : text) : NUL ∉ c_str s.
Proof.
  induction s as [|c s IH]; simpl.
  - apply not_elem_of_nil.
  - destruct (Ascii.eqb_spec c NUL) as [->|Hc].
    + apply not_elem_of_nil.
    + rewrite not_elem_of_cons. split; [congruence | exact IH].
Qed.

Lemma c_str_id (s : text) : NUL ∉ s -> c_str s = s.
Proof.
  induction s as [|c s IH]; simpl; [done|].
  rewrite not_elem_of_cons. intros [Hc Hs].
  destruct (Ascii.eqb_spec c NUL) as [->|_]; [done|].
  by rewrite IH.
Qed.

Lemma c_str_idemp (s : text) : c_str (c_str s) = c_str s.
Proof. apply c_str_id, c_str_no_NUL. Qed.

Lemma c_str_length (s : text) : length (c_str s) <= length s.
Proof.
  induction s as [|c s IH]; simpl; [lia|].
  destruct (Ascii.eqb c NUL); simpl; lia.
Qed.

Lemma c_str_subseteq (s : text) (c : ascii) : c ∈ c_str s -> c ∈ s.
Proof.
  induction s as [|d s IH]; simpl; [done|].
  destruct (Ascii.eqb d NUL).
  - intros H. by apply elem_of_nil in H.
  - rewrite !elem_of_cons. intros [->|H]; [by left | right; auto].
Qed.

(* ===================================================================== *)
(** ** Character arrays: what fits is read back, what does not is an
       out-of-bounds store *)
(* ===================================================================== *)

Lemma store_bytes_at (bs : text) : forall (pre old post : buffer),
  length old = length bs ->
  store_bytes (pre ++ old ++ post) (length pre) bs
  = Some (pre ++ (Some <$> bs) ++ post).
Proof.
  induction bs as [|b bs IH]; intros pre [|o old] post Hlen;
    simpl in Hlen; try discriminate; [done|].
  cbn [store_bytes].
  destruct (decide (length pre < length (pre ++ (o :: old) ++ post))) as [_|Hi].
  - rewrite insert_app_r_alt, Nat.sub_diag by lia. cbn [app insert list_insert].
    specialize (IH (pre ++ [Some b]) old post).
    rewrite length_app, Nat.add_1_r, <- !app_assoc in IH.
    cbn [app length] in IH |- *.
    rewrite IH by lia. by rewrite fmap_cons.
  - rewrite length_app in Hi. simpl in Hi. lia.
Qed.

Lemma store_bytes_fits (bs : text) (n : nat) :
  length bs <= n ->
  store_bytes (alloca n) 0 bs
  = Some ((Some <$> bs) ++ replicate (n - length bs) None).
Proof.
  intros Hlen. unfold alloca.
  replace n with (length bs + (n - length bs)) at 1 by lia.
  rewrite replicate_add.
  apply (store_bytes_at bs [] (replicate (length bs) None)).
  apply length_replicate.
Qed.

Lemma store_bytes_overflow (bs : text) : forall (buf : buffer) (i : nat),
  i <= length buf ->
  length buf < i + length bs ->
  store_bytes buf i bs = None.
Proof.
  induction bs as [|b bs IH]; intros buf i Hi0 Hlen; simpl in *; [lia|].
  destruct (decide (i < length buf)) as [Hi|Hi]; [|done].
  apply IH; rewrite length_insert; lia.
Qed.

Lemma load_str_terminated (s : text) (rest : buffer) :
  load_str ((Some <$> (s ++ [NUL])) ++ rest) = Some (c_str s).
Proof.
  induction s as [|c s IH]; [done|].
  rewrite <- app_comm_cons, fmap_cons, <- app_comm_cons.
  cbn [load_str c_str].
  destruct (Ascii.eqb c NUL); [done|].
  by rewrite IH.
Qed.

Lemma vsprintf_fits (n : nat) (fmt : text) (ap : va_list) (out : text) :
  format (c_str fmt) ap = Some out ->
  length out < n ->
  exists buf, vsprintf (alloca n) fmt ap = Some buf /\
              load_str buf = Some (c_str out).
Proof.
  intros Hfmt Hlen. unfold vsprintf. rewrite Hfmt.
  rewrite store_bytes_fits by (rewrite length_app; simpl; lia).
  eexists. split; [reflexivity|]. apply load_str_terminated.
Qed.

Lemma vsprintf_overflow (n : nat) (fmt : text) (ap : va_list) (out : text) :
  format (c_str fmt) ap = Some out ->
  n <= length out ->
  vsprintf (alloca n) fmt ap = None.
Proof.
  intros Hfmt Hlen. unfold vsprintf. rewrite Hfmt.
  apply store_bytes_overflow; [lia|].
  unfold alloca. rewrite length_replicate, length_app. simpl. lia.
Qed.

(* ===================================================================== *)
(** ** The printf engine *)
(* ===================================================================== *)

Lemma uint_chars (d : Decimal.uint) (c : ascii) :
  c ∈ (NilEmpty.string_of_uint d : text) -> c ∈ ("0123456789" : text).
Proof.
  induction d as [|d IH|d IH|d IH|d IH|d IH|d IH|d IH|d IH|d IH|d IH];
    cbn [NilEmpty.string_of_uint list_ascii_of_string];
    intros H;
    [ by apply elem_of_nil in H
    | apply elem_of_cons in H as [->|H];
      [ cbn [list_ascii_of_string]; rewrite !elem_of_cons; tauto
      | by apply IH ] .. ].
Qed.

Lemma decimal_chars (z : Z) (c : ascii) :
  c ∈ decimal z -> c ∈ ("-0123456789" : text).
Proof.
  assert (Hu : forall d, c ∈ (NilZero.string_of_uint d : text) ->
                         c ∈ ("0123456789" : text)).
  { intros d. destruct d; try apply uint_chars.
    cbn [NilZero.string_of_uint list_ascii_of_string].
    intros [->|[]%elem_of_nil]%elem_of_cons. apply list_elem_of_here. }
  unfold decimal. destruct z as [|p|p]; cbn [Z.to_int NilZero.string_of_int].
  - intros H%Hu. cbn [list_ascii_of_string] in *. by apply list_elem_of_further.
  - intros H%Hu. cbn [list_ascii_of_string] in *. by apply list_elem_of_further.
  - cbn [list_ascii_of_string]. rewrite elem_of_cons. intros [->|H%Hu].
    + apply list_elem_of_here.
    + by apply list_elem_of_further.
Qed.

Lemma decimal_no_LF (z : Z) : LF ∉ decimal z.
Proof.
  intros H%decimal_chars. cbn [list_ascii_of_string] in H.
  rewrite !elem_of_cons, elem_of_nil in H. unfold LF in H.
  intuition discriminate.
Qed.

(** Arguments beyond those the format consumes are ignored. *)
Lemma convert_surplus (conv : ascii) (ap extra ap' : va_list) (out : text) :
  convert conv ap = Some (out, ap') ->
  convert conv (ap ++ extra) = Some (out, ap' ++ extra).
Proof.
  unfold convert. destruct (Ascii.eqb conv "%"); [by intros [= <- <-]|].
  destruct ap as [|a ap]; [done|]. cbn [app].
  destruct (Ascii.eqb conv "s"); [destruct a; by intros [= <- <-]|].
  destruct (Ascii.eqb conv "d" || Ascii.eqb conv "i");
    [destruct a; by intros [= <- <-]|].
  destruct (Ascii.eqb conv "c"); [destruct a; by intros [= <- <-]|done].
Qed.

Lemma format_surplus (fmt : text) : forall (ap extra : va_list) (out : text),
  format fmt ap = Some out -> format fmt (ap ++ extra) = Some out.
Proof.
  induction fmt as [fmt IH] using (induction_ltof1 _ (@length ascii)).
  unfold ltof in IH. intros ap extra out.
  destruct fmt as [|c fmt]; [done|]. cbn [format].
  destruct (Ascii.eqb c "%").
  - destruct fmt as [|conv rest]; [done|].
    destruct (convert conv ap) as [[o ap']|] eqn:Hc; [|done].
    rewrite (convert_surplus _ _ extra _ _ Hc).
    destruct (format rest ap') as [tl|] eqn:Hr; [|done].
    intros [= <-]. rewrite (IH rest) with (out := tl); [done|simpl; lia|done].
  - destruct (format fmt ap) as [tl|] eqn:Hr; [|done].
    intros [= <-]. rewrite (IH fmt) with (out := tl); [done|simpl; lia|done].
Qed.

(** The plain-message template: the message goes through [%s] whatever it
    contains. *)
Lemma format_percent_s (msg : text) (ap : va_list) :
  format (c_str "%s") (VStr msg :: ap) = Some (c_str msg).
Proof. cbn. by rewrite app_nil_r. Qed.

(* ===================================================================== *)
(** ** The line format *)
(* ===================================================================== *)

Lemma log_line_prefix (tag file func : text) (line : Z) (m : text) :
  log_line tag file func line m = prefix tag file func line ++ m ++ [LF].
Proof.
  unfold log_line, prefix. cbn [list_ascii_of_string app].
  rewrite <- !app_assoc. cbn [app]. 
  repeat (f_equal; rewrite <- ?app_assoc, <- ?app_comm_cons).
Qed.

Lemma one_line_log_line (tag file func : text) (line : Z) (m : text) :
  LF ∉ tag -> LF ∉ file -> LF ∉ func -> LF ∉ m ->
  one_line (log_line tag file func line m).
Proof.
  intros Ht Hf Hfn Hm. exists (prefix tag file func line ++ m). split.
  - by rewrite log_line_prefix, app_assoc.
  - unfold prefix. cbn [list_ascii_of_string].
    rewrite !not_elem_of_app, !not_elem_of_cons.
    pose proof (decimal_no_LF line).
    assert (LF ∉ c_str file) by (intros ?%c_str_subseteq; done).
    assert (LF ∉ c_str func) by (intros ?%c_str_subseteq; done).
    unfold LF in *. repeat split; try done; apply not_elem_of_nil.
Qed.

Lemma colored_tag_no_LF (sev : severity) : LF ∉ colored_tag sev.
Proof.
  destruct sev;
    unfold colored_tag, color_on, color_off, sgr, tag_name;
    cbn [list_ascii_of_string app];
    rewrite !not_elem_of_cons; unfold LF, ESC;
    repeat split; try done; apply not_elem_of_nil.
Qed.

(* ===================================================================== *)
(** ** jp_log.c: the three functions *)
(* ===================================================================== *)

Lemma format_info_line (file func : text) (line : Z) (m : text) :
  format
    (c_str ("[" ++ ESC :: "[34;1mINFO" ++ ESC :: "[0m][%s][%s][%d]: %s" ++ [LF]))
    [VStr file; VStr func; VInt line; VStr m]
  = Some (log_line (colored_tag INFO) file func line (c_str m)).
Proof. reflexivity. Qed.

Lemma format_warn_line (file func : text) (line : Z) (m : text) :
  format
    (c_str ("[" ++ ESC :: "[33;1mWARN" ++ ESC :: "[0m][%s][%s][%d]: %s" ++ [LF]))
    [VStr file; VStr func; VInt line; VStr m]
  = Some (log_line (colored_tag WARN) file func line (c_str m)).
Proof. reflexivity. Qed.

Lemma format_exit_line (file func : text) (line : Z) (m : text) :
  format
    (c_str ("[" ++ ESC :: "[31;1mEXIT" ++ ESC :: "[0m][%s][%s][%d]: %s" ++ [LF]))
    [VStr file; VStr func; VInt line; VStr m]
  = Some (log_line (colored_tag EXIT) file func line (c_str m)).
Proof. reflexivity. Qed.

Ltac run_emission Hf Hlen :=
  let buf := fresh "buf" in
  let Hv := fresh "Hv" in
  let Hl := fresh "Hl" in
  destruct (vsprintf_fits MSGBUFF_SIZE _ _ _ Hf Hlen) as (buf & Hv & Hl);
  unfold jpLog__info, jpLog__warn, jpLog__exit, bind, defined;
  rewrite Hv, Hl;
  unfold fprintf, bind, defined, ret, exit;
  rewrite ?format_info_line, ?format_warn_line, ?format_exit_line, c_str_idemp;
  reflexivity.

Lemma jpLog__info_emits (file func : text) (line : Z) (fmt : text)
    (ap : va_list) (m : text) (w : world) :
  renders fmt ap m ->
  jpLog__info file func line fmt ap w
  = Returns tt (fwrite stdout (log_line (colored_tag INFO) file func line m) w).
Proof. intros (out & Hf & Hlen & ->). run_emission Hf Hlen. Qed.

Lemma jpLog__warn_emits (file func : text) (line : Z) (fmt : text)
    (ap : va_list) (m : text) (w : world) :
  renders fmt ap m ->
  jpLog__warn file func line fmt ap w
  = Returns tt (fwrite stderr (log_line (colored_tag WARN) file func line m) w).
Proof. intros (out & Hf & Hlen & ->). run_emission Hf Hlen. Qed.

Lemma jpLog__exit_emits (file func : text) (line : Z) (fmt : text)
    (ap : va_list) (m : text) (w : world) :
  renders fmt ap m ->
  jpLog__exit file func line fmt ap w
  = Exits EXIT_FAILURE
      (fwrite stderr (log_line (colored_tag EXIT) file func line m) w).
Proof. intros (out & Hf & Hlen & ->). run_emission Hf Hlen. Qed.

(** A rendering that does not leave room for the terminator is stored past
    the end of [msgbuff]. *)
Lemma emission_overflow (file func : text) (line : Z) (fmt : text)
    (ap : va_list) (out : text) (w : world) :
  format (c_str fmt) ap = Some out ->
  MSGBUFF_SIZE <= length out ->
  jpLog__info file func line fmt ap w = Undefined /\
  jpLog__warn file func line fmt ap w = Undefined /\
  jpLog__exit file func line fmt ap w = Undefined.
Proof.
  intros Hf Hlen.
  pose proof (vsprintf_overflow MSGBUFF_SIZE fmt ap out Hf Hlen) as Hv.
  unfold jpLog__info, jpLog__warn, jpLog__exit, bind, defined.
  by rewrite Hv.
Qed.

(** A call [vsprintf] gives no meaning to has none either. *)
Lemma emission_undefined (file func : text) (line : Z) (fmt : text)
    (ap : va_list) (w : world) :
  format (c_str fmt) ap = None ->
  jpLog__info file func line fmt ap w = Undefined /\
  jpLog__warn file func line fmt ap w = Undefined /\
  jpLog__exit file func line fmt ap w = Undefined.
Proof.
  intros Hf.
  unfold jpLog__info, jpLog__warn, jpLog__exit, bind, defined, vsprintf.
  by rewrite Hf.
Qed.

(** Either way a call is decided by the rendering alone. *)
Lemma renders_or_not (fmt : text) (ap : va_list) :
  (exists m, renders fmt ap m) \/
  (format (c_str fmt) ap = None) \/
  (exists out, format (c_str fmt) ap = Some out /\ MSGBUFF_SIZE <= length out).
Proof.
  destruct (format (c_str fmt) ap) as [out|] eqn:Hf; [|by right; left].
  destruct (decide (length out < MSGBUFF_SIZE)) as [Hlen|Hlen].
  - left. exists (c_str out), out. done.
  - right; right. exists out. split; [done|lia].
Qed.

Lemma renders_plain (msg : text) :
  length (c_str msg) < MSGBUFF_SIZE -> renders "%s" [VStr msg] (c_str msg).
Proof.
  intros Hlen. exists (c_str msg).
  by rewrite format_percent_s, c_str_idemp.
Qed.

(** A rendering checked by evaluation. *)
Lemma renders_intro (fmt : text) (ap : va_list) (out : text) :
  format (c_str fmt) ap = Some out ->
  (length out <? MSGBUFF_SIZE) = true ->
  renders fmt ap (c_str out).
Proof. intros Hf Hlen%Nat.ltb_lt. by exists out. Qed.

(* ===================================================================== *)
(** ** Emission: info and warn *)
(* ===================================================================== *)

(** C1.  For a message that renders within the buffer, [jpLog__info] and
    [jpLog__warn], and the macros [jpLog_info], [jpLog_infoFmt],
    [jpLog_warn], [jpLog_warnFmt] around them, write exactly the text
    [[<TAG>][<file>][<function>][<line>]: <message>] and a newline, the
    INFO line to stdout and the WARN line to stderr (the other stream is
    left as it was), and return to the caller.  The tag is in its colored
    rendering.  When neither the location nor the message contains a
    newline, what is written is one line. *)
Theorem info_warn_write_one_line (cs : call_site) (fmt : text) (ap : va_list)
    (m : text) (w : world) :
  renders fmt ap m ->
  let file := __FILE__ cs in
  let func := __func__ cs in
  let line := __LINE__ cs in
  let info_line := log_line (colored_tag INFO) file func line m in
  let warn_line := log_line (colored_tag WARN) file func line m in
  jpLog__info file func line fmt ap w = Returns tt (fwrite stdout info_line w) /\
  jpLog__warn file func line fmt ap w = Returns tt (fwrite stderr warn_line w) /\
  jpLog_infoFmt cs fmt ap w = Returns tt (fwrite stdout info_line w) /\
  jpLog_warnFmt cs fmt ap w = Returns tt (fwrite stderr warn_line w) /\
  (forall msg, fmt = "%s" -> ap = [VStr msg] ->
     jpLog_info cs msg w = Returns tt (fwrite stdout info_line w) /\
     jpLog_warn cs msg w = Returns tt (fwrite stderr warn_line w)) /\
  written stdout (fwrite stdout info_line w) = written stdout w ++ info_line /\
  written stderr (fwrite stdout info_line w) = written stderr w /\
  written stderr (fwrite stderr warn_line w) = written stderr w ++ warn_line /\
  written stdout (fwrite stderr warn_line w) = written stdout w /\
  (LF ∉ file -> LF ∉ func -> LF ∉ m ->
     one_line info_line /\ one_line warn_line).
Proof.
  intros Hr file func line info_line warn_line.
  pose proof (jpLog__info_emits file func line fmt ap m w Hr) as Hi.
  pose proof (jpLog__warn_emits file func line fmt ap m w Hr) as Hw.
  repeat split; try done.
  - subst fmt ap. exact Hi.
  - subst fmt ap. exact Hw.
  - apply one_line_log_line; auto using colored_tag_no_LF.
  - apply one_line_log_line; auto using colored_tag_no_LF.
Qed.

(* ===================================================================== *)
(** ** Emission: exit *)
(* ===================================================================== *)

(** C2.  For a message that renders within the buffer, [jpLog__exit] and
    the macros [jpLog_exit] and [jpLog_exitFmt] write the EXIT line to
    stderr and then terminate the process with [EXIT_FAILURE], which is
    not the success status.  The call does not return: whatever code
    follows it, the outcome is the same termination in the same state. *)
Theorem exit_writes_line_then_terminates (cs : call_site) (fmt : text)
    (ap : va_list) (m : text) (w : world) :
  renders fmt ap m ->
  let file := __FILE__ cs in
  let func := __func__ cs in
  let line := __LINE__ cs in
  let exit_line := log_line (colored_tag EXIT) file func line m in
  let ended := Exits EXIT_FAILURE (fwrite stderr exit_line w) in
  jpLog__exit file func line fmt ap w = ended /\
  jpLog_exitFmt cs fmt ap w = ended /\
  (forall msg, fmt = "%s" -> ap = [VStr msg] -> jpLog_exit cs msg w = ended) /\
  EXIT_FAILURE <> EXIT_SUCCESS /\
  (forall (B : Type) (after : unit -> M B),
     bind (jpLog__exit file func line fmt ap) after w
     = Exits EXIT_FAILURE (fwrite stderr exit_line w)) /\
  written stderr (fwrite stderr exit_line w) = written stderr w ++ exit_line /\
  written stdout (fwrite stderr exit_line w) = written stdout w /\
  (LF ∉ file -> LF ∉ func -> LF ∉ m -> one_line exit_line).
Proof.
  intros Hr file func line exit_line ended.
  pose proof (jpLog__exit_emits file func line fmt ap m w Hr) as He.
  repeat split; try done.
  - intros msg -> ->. exact He.
  - intros B after. unfold bind at 1. by rewrite He.
  - intros. apply one_line_log_line; auto using colored_tag_no_LF.
Qed.

(* ===================================================================== *)
(** ** Messages longer than the buffer *)
(* ===================================================================== *)

(** C3.  A template that produces 2000 characters is not truncated to
    1023: [vsprintf] fills all 1024 cells of [msgbuff] and the next store
    is outside the array, so the call has no defined outcome and no line
    is promised.  The same holds for the plain-message macro. *)
Theorem long_message_overruns_msgbuff (w : world) :
  format (c_str "%s") [VStr long_message] = Some long_message /\
  length long_message = 2000 /\
  store_bytes (alloca MSGBUFF_SIZE) 0 (take MSGBUFF_SIZE long_message)
  = Some (Some <$> take MSGBUFF_SIZE long_message) /\
  vsprintf (alloca MSGBUFF_SIZE) "%s" [VStr long_message] = None /\
  jpLog__info "a.c" "main" 10 "%s" [VStr long_message] w = Undefined /\
  jpLog_infoFmt site_a "%s" [VStr long_message] w = Undefined /\
  jpLog_info site_a long_message w = Undefined.
Proof.
  assert (Hf : format (c_str "%s") [VStr long_message] = Some long_message)
    by (by vm_compute).
  assert (Hlen : MSGBUFF_SIZE <= length long_message) by (vm_compute; lia).
  pose proof (emission_overflow "a.c" "main" 10 "%s" _ _ w Hf Hlen) as [Hi _].
  split; [exact Hf|].
  split; [by vm_compute|].
  split; [by vm_compute|].
  split; [exact (vsprintf_overflow _ _ _ _ Hf Hlen)|].
  split; [exact Hi|].
  split; exact Hi.
Qed.

(* ===================================================================== *)
(** ** What a call can do to the calling program *)
(* ===================================================================== *)

Lemma jpLog__info_outcome (file func : text) (line : Z) (fmt : text)
    (ap : va_list) (w : world) :
  jpLog__info file func line fmt ap w = Undefined \/
  exists s, jpLog__info file func line fmt ap w = Returns tt (fwrite stdout s w).
Proof.
  destruct (renders_or_not fmt ap) as [[m Hr]|[Hn|(out & Hf & Hlen)]].
  - right. eexists. by apply jpLog__info_emits.
  - left.
    by destruct (emission_undefined file func line fmt ap w Hn) as (Hi & _ & _).
  - left.
    by destruct (emission_overflow file func line fmt ap out w Hf Hlen)
      as (Hi & _ & _).
Qed.

Lemma jpLog__warn_outcome (file func : text) (line : Z) (fmt : text)
    (ap : va_list) (w : world) :
  jpLog__warn file func line fmt ap w = Undefined \/
  exists s, jpLog__warn file func line fmt ap w = Returns tt (fwrite stderr s w).
Proof.
  destruct (renders_or_not fmt ap) as [[m Hr]|[Hn|(out & Hf & Hlen)]].
  - right. eexists. by apply jpLog__warn_emits.
  - left.
    by destruct (emission_undefined file func line fmt ap w Hn) as (_ & Hi & _).
  - left.
    by destruct (emission_overflow file func line fmt ap out w Hf Hlen)
      as (_ & Hi & _).
Qed.

Lemma jpLog__exit_outcome (file func : text) (line : Z) (fmt : text)
    (ap : va_list) (w : world) :
  jpLog__exit file func line fmt ap w = Undefined \/
  exists s, jpLog__exit file func line fmt ap w
            = Exits EXIT_FAILURE (fwrite stderr s w).
Proof.
  destruct (renders_or_not fmt ap) as [[m Hr]|[Hn|(out & Hf & Hlen)]].
  - right. eexists. by apply jpLog__exit_emits.
  - left.
    by destruct (emission_undefined file func line fmt ap w Hn) as (_ & _ & Hi).
  - left.
    by destruct (emission_overflow file func line fmt ap out w Hf Hlen)
      as (_ & _ & Hi).
Qed.

Lemma jpLog__info_keeps_vars file func line fmt ap :
  keeps_vars (jpLog__info file func line fmt ap).
Proof.
  intros w a w' H.
  destruct (jpLog__info_outcome file func line fmt ap w) as [Hu|[s Hs]];
    rewrite H in *; [done|]. by injection Hs as _ ->.
Qed.

Lemma jpLog__warn_keeps_vars file func line fmt ap :
  keeps_vars (jpLog__warn file func line fmt ap).
Proof.
  intros w a w' H.
  destruct (jpLog__warn_outcome file func line fmt ap w) as [Hu|[s Hs]];
    rewrite H in *; [done|]. by injection Hs as _ ->.
Qed.

Lemma jpLog__exit_keeps_vars file func line fmt ap :
  keeps_vars (jpLog__exit file func line fmt ap).
Proof.
  intros w a w' H.
  destruct (jpLog__exit_outcome file func line fmt ap w) as [Hu|[s Hs]];
    rewrite H in *; done.
Qed.

(** The expansion [(expr) ? (emit, expr) : expr] for a condition without
    effects. *)
Lemma guard_reads (emit : M unit) (f : gmap string Z -> Z) (w : world) :
  keeps_vars emit ->
  (let* c := reads f in if truth c then emit >> reads f else reads f) w
  = if truth (f (vars w)) then (emit >> ret (f (vars w))) w
    else Returns (f (vars w)) w.
Proof.
  intros Hk. unfold bind at 1. unfold reads at 1.
  destruct (truth (f (vars w))); [|done].
  unfold bind. destruct (emit w) as [a w'| |] eqn:He; [|done..].
  unfold reads, ret. by rewrite (Hk _ _ _ He).
Qed.

(* ===================================================================== *)
(** ** Guarded forms *)
(* ===================================================================== *)

(** C4.  A guarded form whose condition has no effects (it reads the
    program's variables): if the condition is true, the form does what
    the unguarded emission does -- for the exit tier that is the
    termination -- and, when that returns, yields the condition's value;
    if the condition is false, nothing is written, nothing else changes,
    and the value is yielded all the same. *)
Theorem guarded_forms_yield_condition (cs : call_site)
    (f : gmap string Z -> Z) (msg fmt : text) (ap : va_list) (w : world) :
  let c := f (vars w) in
  jpLog_infoIf cs (reads f) msg w
  = (if truth c then (jpLog_info cs msg >> ret c) w else Returns c w) /\
  jpLog_infoFmtIf cs (reads f) fmt ap w
  = (if truth c then (jpLog_infoFmt cs fmt ap >> ret c) w else Returns c w) /\
  jpLog_warnIf cs (reads f) msg w
  = (if truth c then (jpLog_warn cs msg >> ret c) w else Returns c w) /\
  jpLog_warnFmtIf cs (reads f) fmt ap w
  = (if truth c then (jpLog_warnFmt cs fmt ap >> ret c) w else Returns c w) /\
  jpLog_exitIf cs (reads f) msg w
  = (if truth c then (jpLog_exit cs msg >> ret c) w else Returns c w) /\
  jpLog_exitFmtIf cs (reads f) fmt ap w
  = (if truth c then (jpLog_exitFmt cs fmt ap >> ret c) w else Returns c w).
Proof.
  intros c. subst c.
  unfold jpLog_infoIf, jpLog_infoFmtIf, jpLog_warnIf, jpLog_warnFmtIf,
    jpLog_exitIf, jpLog_exitFmtIf.
  split; [exact (guard_reads (jpLog_info cs msg) f w
                   (jpLog__info_keeps_vars _ _ _ _ _))|].
  split; [exact (guard_reads (jpLog_infoFmt cs fmt ap) f w
                   (jpLog__info_keeps_vars _ _ _ _ _))|].
  split; [exact (guard_reads (jpLog_warn cs msg) f w
                   (jpLog__warn_keeps_vars _ _ _ _ _))|].
  split; [exact (guard_reads (jpLog_warnFmt cs fmt ap) f w
                   (jpLog__warn_keeps_vars _ _ _ _ _))|].
  split; [exact (guard_reads (jpLog_exit cs msg) f w
                   (jpLog__exit_keeps_vars _ _ _ _ _))|].
  exact (guard_reads (jpLog_exitFmt cs fmt ap) f w
           (jpLog__exit_keeps_vars _ _ _ _ _)).
Qed.

(* ===================================================================== *)
(** ** Tiers switched off at build time *)
(* ===================================================================== *)

(** C5.  With a tier's macros compiled to [(void)(...)], whatever the
    message, the format and its arguments (too long, missing, of the wrong
    type): every operation of the tier returns, and with a condition
    that has no effects the process is exactly as before -- nothing
    written, no termination even for the exit tier and a true condition.
    The operands are still evaluated: a condition with effects is
    evaluated once, its value discarded, and only its own effect shows. *)
Theorem disabled_tier_is_silent (f : gmap string Z -> Z)
    (g : gmap string Z -> gmap string Z) (msg fmt : text) (ap : va_list)
    (w : world) :
  Forall (fun op : M unit => op w = Returns tt w)
    [ NOINFO.jpLog_info msg; NOINFO.jpLog_infoIf (reads f) msg;
      NOINFO.jpLog_infoFmt fmt ap; NOINFO.jpLog_infoFmtIf (reads f) fmt ap;
      NOWARN.jpLog_warn msg; NOWARN.jpLog_warnIf (reads f) msg;
      NOWARN.jpLog_warnFmt fmt ap; NOWARN.jpLog_warnFmtIf (reads f) fmt ap;
      NOEXIT.jpLog_exit msg; NOEXIT.jpLog_exitIf (reads f) msg;
      NOEXIT.jpLog_exitFmt fmt ap; NOEXIT.jpLog_exitFmtIf (reads f) fmt ap ] /\
  Forall (fun op : M unit => op w = Returns tt (set_vars (g (vars w)) w))
    [ NOINFO.jpLog_infoIf (updates f g) msg;
      NOINFO.jpLog_infoFmtIf (updates f g) fmt ap;
      NOWARN.jpLog_warnIf (updates f g) msg;
      NOWARN.jpLog_warnFmtIf (updates f g) fmt ap;
      NOEXIT.jpLog_exitIf (updates f g) msg;
      NOEXIT.jpLog_exitFmtIf (updates f g) fmt ap ] /\
  Forall (fun form : M Z -> M unit => forall expr, form expr = (expr >> ret tt))
    [ fun expr => NOINFO.jpLog_infoIf expr msg;
      fun expr => NOINFO.jpLog_infoFmtIf expr fmt ap;
      fun expr => NOWARN.jpLog_warnIf expr msg;
      fun expr => NOWARN.jpLog_warnFmtIf expr fmt ap;
      fun expr => NOEXIT.jpLog_exitIf expr msg;
      fun expr => NOEXIT.jpLog_exitFmtIf expr fmt ap ].
Proof.
  split; [|split]; repeat (apply Forall_cons_2; [reflexivity|]);
    apply Forall_nil_2.
Qed.

(* ===================================================================== *)
(** ** Color *)
(* ===================================================================== *)

(** C6, as stated, fails: stdout is not a terminal here, and the INFO tag
    is written between its escape sequences all the same; the line is not
    the one with the bare tag. *)
Lemma color_written_to_redirected_stream :
  isatty stdout redirected = false /\
  jpLog__info "a.c" "main" 10 "value=%d" [VInt 42] redirected
  = Returns tt
      (fwrite stdout
         ("[" ++ ESC :: "[34;1mINFO" ++ ESC :: "[0m][a.c][main][10]: value=42"
              ++ [LF])
         redirected) /\
  jpLog__info "a.c" "main" 10 "value=%d" [VInt 42] redirected
  <> Returns tt
       (fwrite stdout
          (log_line (documented_tag INFO (isatty stdout redirected))
             "a.c" "main" 10 "value=42")
          redirected).
Proof.
  split; [reflexivity|]. split; [by vm_compute|].
  intros H. vm_compute in H. discriminate H.
Qed.

(** C6, amended.  Whether or not the destination is a terminal, the tag is
    written between the escape sequences: [ESC[34;1m] (blue, bold) for INFO,
    [ESC[33;1m] (yellow, bold) for WARN, [ESC[31;1m] (red, bold) for EXIT,
    and [ESC[0m] after the tag. *)
Theorem tag_colored_on_any_stream (file func : text) (line : Z) (fmt : text)
    (ap : va_list) (m : text) (out err : text) (tty_out tty_err : bool)
    (vs : gmap string Z) :
  renders fmt ap m ->
  let w := World out err tty_out tty_err vs in
  jpLog__info file func line fmt ap w
  = Returns tt (fwrite stdout (log_line (colored_tag INFO) file func line m) w) /\
  jpLog__warn file func line fmt ap w
  = Returns tt (fwrite stderr (log_line (colored_tag WARN) file func line m) w) /\
  jpLog__exit file func line fmt ap w
  = Exits EXIT_FAILURE
      (fwrite stderr (log_line (colored_tag EXIT) file func line m) w) /\
  colored_tag INFO = ESC :: "[34;1m" ++ "INFO" ++ ESC :: "[0m" /\
  colored_tag WARN = ESC :: "[33;1m" ++ "WARN" ++ ESC :: "[0m" /\
  colored_tag EXIT = ESC :: "[31;1m" ++ "EXIT" ++ ESC :: "[0m".
Proof.
  intros Hr w.
  split; [by apply jpLog__info_emits|].
  split; [by apply jpLog__warn_emits|].
  split; [by apply jpLog__exit_emits|].
  split; [reflexivity|]. split; reflexivity.
Qed.

(* ===================================================================== *)
(** ** Format arguments *)
(* ===================================================================== *)

(** C7, as stated, fails: with [%s] and no argument for it, [vsprintf] has
    no defined behaviour; it runs before anything is printed, so not even
    the prefix of the line is promised. *)
Lemma missing_argument_is_undefined :
  format (c_str "%s") [] = None /\
  jpLog__info "a.c" "main" 10 "%s" [] redirected = Undefined /\
  ~ (exists garbled,
       jpLog__info "a.c" "main" 10 "%s" [] redirected
       = Returns tt
           (fwrite stdout
              (prefix (colored_tag INFO) "a.c" "main" 10 ++ garbled)
              redirected)).
Proof.
  assert (H : jpLog__info "a.c" "main" 10 "%s" [] redirected = Undefined).
  { by destruct (emission_undefined "a.c" "main" 10 "%s" [] redirected eq_refl)
      as (Hi & _ & _). }
  split; [reflexivity|]. split; [exact H|].
  intros [garbled Hg]. rewrite H in Hg. discriminate Hg.
Qed.

Lemma renders_surplus (fmt : text) (ap extra : va_list) (m : text) :
  renders fmt ap m -> renders fmt (ap ++ extra) m.
Proof.
  intros (out & Hf & Hlen & ->). exists out.
  by rewrite (format_surplus _ _ extra _ Hf).
Qed.

(** C7, amended.  When every conversion of the template finds an argument
    of its type (arguments left over are ignored) and the rendering fits
    the buffer, the line is written with its prefix intact, and the
    functions hand nothing back to the caller: info and warn return,
    exit terminates. *)
Theorem matching_arguments_keep_prefix (file func : text) (line : Z)
    (fmt : text) (ap extra : va_list) (m : text) (w : world) :
  renders fmt ap m ->
  jpLog__info file func line fmt (ap ++ extra) w
  = Returns tt
      (fwrite stdout (prefix (colored_tag INFO) file func line ++ m ++ [LF]) w) /\
  jpLog__warn file func line fmt (ap ++ extra) w
  = Returns tt
      (fwrite stderr (prefix (colored_tag WARN) file func line ++ m ++ [LF]) w) /\
  jpLog__exit file func line fmt (ap ++ extra) w
  = Exits EXIT_FAILURE
      (fwrite stderr (prefix (colored_tag EXIT) file func line ++ m ++ [LF]) w).
Proof.
  intros Hr%(renders_surplus _ _ extra). rewrite <- !log_line_prefix.
  split; [by apply jpLog__info_emits|].
  split; [by apply jpLog__warn_emits|by apply jpLog__exit_emits].
Qed.

(* ===================================================================== *)
(** ** Plain messages *)
(* ===================================================================== *)

(** C8.  The plain-message macros hand [jpLog__*] the fixed template
    ["%s"] and the message as its argument.  Rendering the message
    yields its own characters, percent signs included, and no further
    argument is asked for; when it fits the buffer, the message field of
    the line written is the message itself. *)
Theorem plain_message_is_not_a_template (cs : call_site) (msg : text)
    (w : world) :
  length (c_str msg) < MSGBUFF_SIZE ->
  let file := __FILE__ cs in
  let func := __func__ cs in
  let line := __LINE__ cs in
  jpLog_info cs msg = jpLog__info file func line "%s" [VStr msg] /\
  jpLog_warn cs msg = jpLog__warn file func line "%s" [VStr msg] /\
  jpLog_exit cs msg = jpLog__exit file func line "%s" [VStr msg] /\
  format (c_str "%s") [VStr msg] = Some (c_str msg) /\
  (NUL ∉ msg -> c_str msg = msg) /\
  jpLog_info cs msg w
  = Returns tt
      (fwrite stdout (log_line (colored_tag INFO) file func line (c_str msg)) w) /\
  jpLog_warn cs msg w
  = Returns tt
      (fwrite stderr (log_line (colored_tag WARN) file func line (c_str msg)) w) /\
  jpLog_exit cs msg w
  = Exits EXIT_FAILURE
      (fwrite stderr (log_line (colored_tag EXIT) file func line (c_str msg)) w).
Proof.
  intros Hr%renders_plain file func line.
  split; [reflexivity|]. split; [reflexivity|]. split; [reflexivity|].
  split; [apply format_percent_s|]. split; [apply c_str_id|].
  split; [by apply jpLog__info_emits|].
  split; [by apply jpLog__warn_emits|by apply jpLog__exit_emits].
Qed.

(* ===================================================================== *)
(** ** Conditions with effects *)
(* ===================================================================== *)

(** C9, as stated, fails for the exit tier: with [n] at 5 the condition
    [n++] is true, the message is printed and the process ends; [n] has
    been incremented once, to 6, not twice.  The same condition under
    [jpLog_infoIf] leaves 7. *)
Lemma exit_guard_evaluates_condition_once :
  jpLog_exitIf site_c (post_incr "n") "unreachable" redirected_n5
  = Exits EXIT_FAILURE
      (fwrite stderr
         (log_line (colored_tag EXIT) "c.c" "init" 5 "unreachable")
         (set_vars {[ "n" := 6%Z ]} redirected_n5)) /\
  final_var "n" (jpLog_exitIf site_c (post_incr "n") "unreachable" redirected_n5)
  = Some 6%Z /\
  final_var "n" (jpLog_exitIf site_c (post_incr "n") "unreachable" redirected_n5)
  <> Some 7%Z /\
  final_var "n" (jpLog_infoIf site_c (post_incr "n") "unreachable" redirected_n5)
  = Some 7%Z.
Proof.
  split; [by vm_compute|]. split; [by vm_compute|].
  split; [by vm_compute|by vm_compute].
Qed.

(** The expansion [(expr) ? (emit, expr) : expr] around an emission that
    returns. *)
Lemma guard_updates (emit : M unit) (f : gmap string Z -> Z)
    (g : gmap string Z -> gmap string Z) (st : FILE) (s : text) (w : world) :
  (forall w1, emit w1 = Returns tt (fwrite st s w1)) ->
  (let* c := updates f g in if truth c then emit >> updates f g else updates f g) w
  = if truth (f (vars w))
    then Returns (f (g (vars w))) (fwrite st s (set_vars (g (g (vars w))) w))
    else Returns (f (g (vars w))) (set_vars (g (g (vars w))) w).
Proof.
  intros He. unfold bind at 1. unfold updates at 1.
  destruct (truth (f (vars w))); [|reflexivity].
  unfold bind. rewrite He. destruct st; reflexivity.
Qed.

(** The same around an emission that ends the process. *)
Lemma guard_updates_exit (emit : M unit) (f : gmap string Z -> Z)
    (g : gmap string Z -> gmap string Z) (s : text) (w : world) :
  (forall w1, emit w1 = Exits EXIT_FAILURE (fwrite stderr s w1)) ->
  (let* c := updates f g in if truth c then emit >> updates f g else updates f g) w
  = if truth (f (vars w))
    then Exits EXIT_FAILURE (fwrite stderr s (set_vars (g (vars w)) w))
    else Returns (f (g (vars w))) (set_vars (g (g (vars w))) w).
Proof.
  intros He. unfold bind at 1. unfold updates at 1.
  destruct (truth (f (vars w))); [|reflexivity].
  unfold bind. by rewrite He.
Qed.

(** C9, amended.  Take a condition whose value is [f] of the variables
    and whose effect on them is [g], and a message that fits the buffer.
    Under the info and warn guards the condition is evaluated twice
    whether it is true or false: the variables end as [g (g vs)] and the
    value yielded is that of the second evaluation.  Under the exit guard
    it is evaluated twice when false, and once when true: the process
    ends with the variables at [g vs]. *)
Theorem condition_evaluated_twice_unless_exit (cs : call_site)
    (f : gmap string Z -> Z) (g : gmap string Z -> gmap string Z)
    (fmt : text) (ap : va_list) (m : text) (w : world) :
  renders fmt ap m ->
  let vs := vars w in
  let once := set_vars (g vs) w in
  let twice := set_vars (g (g vs)) w in
  let line sev :=
    log_line (colored_tag sev) (__FILE__ cs) (__func__ cs) (__LINE__ cs) m in
  let info_result :=
    if truth (f vs) then Returns (f (g vs)) (fwrite stdout (line INFO) twice)
    else Returns (f (g vs)) twice in
  let warn_result :=
    if truth (f vs) then Returns (f (g vs)) (fwrite stderr (line WARN) twice)
    else Returns (f (g vs)) twice in
  let exit_result :=
    if truth (f vs) then Exits EXIT_FAILURE (fwrite stderr (line EXIT) once)
    else Returns (f (g vs)) twice in
  jpLog_infoFmtIf cs (updates f g) fmt ap w = info_result /\
  jpLog_warnFmtIf cs (updates f g) fmt ap w = warn_result /\
  jpLog_exitFmtIf cs (updates f g) fmt ap w = exit_result /\
  (forall msg, fmt = "%s" -> ap = [VStr msg] ->
     jpLog_infoIf cs (updates f g) msg w = info_result /\
     jpLog_warnIf cs (updates f g) msg w = warn_result /\
     jpLog_exitIf cs (updates f g) msg w = exit_result).
Proof.
  intros Hr vs once twice line info_result warn_result exit_result.
  assert (Hi : jpLog_infoFmtIf cs (updates f g) fmt ap w = info_result).
  { unfold jpLog_infoFmtIf.
    apply (guard_updates (jpLog_infoFmt cs fmt ap) f g stdout (line INFO) w).
    intros w1. exact (jpLog__info_emits _ _ _ _ _ _ w1 Hr). }
  assert (Hw : jpLog_warnFmtIf cs (updates f g) fmt ap w = warn_result).
  { unfold jpLog_warnFmtIf.
    apply (guard_updates (jpLog_warnFmt cs fmt ap) f g stderr (line WARN) w).
    intros w1. exact (jpLog__warn_emits _ _ _ _ _ _ w1 Hr). }
  assert (He : jpLog_exitFmtIf cs (updates f g) fmt ap w = exit_result).
  { unfold jpLog_exitFmtIf.
    apply (guard_updates_exit (jpLog_exitFmt cs fmt ap) f g (line EXIT) w).
    intros w1. exact (jpLog__exit_emits _ _ _ _ _ _ w1 Hr). }
  split; [exact Hi|]. split; [exact Hw|]. split; [exact He|].
  intros msg Hfmt Hap. subst fmt ap.
  split; [exact Hi|]. split; [exact Hw|exact He].
Qed.

(* ===================================================================== *)
(** ** Determinism *)
(* ===================================================================== *)

(** C10.  The line a call writes is a function of the file, the function
    name, the line number and the rendered message.  Two calls that agree
    on these -- from any two states of the process, through any two
    templates -- append the same characters to the same stream; a call
    repeated at once appends the line a second time, unchanged. *)
Theorem emission_deterministic (file func : text) (line : Z)
    (fmt1 fmt2 : text) (ap1 ap2 : va_list) (m : text) :
  renders fmt1 ap1 m ->
  renders fmt2 ap2 m ->
  exists info_line warn_line exit_line : text,
    forall w1 w2 : world,
      jpLog__info file func line fmt1 ap1 w1
      = Returns tt (fwrite stdout info_line w1) /\
      jpLog__info file func line fmt2 ap2 w2
      = Returns tt (fwrite stdout info_line w2) /\
      jpLog__warn file func line fmt1 ap1 w1
      = Returns tt (fwrite stderr warn_line w1) /\
      jpLog__warn file func line fmt2 ap2 w2
      = Returns tt (fwrite stderr warn_line w2) /\
      jpLog__exit file func line fmt1 ap1 w1
      = Exits EXIT_FAILURE (fwrite stderr exit_line w1) /\
      jpLog__exit file func line fmt2 ap2 w2
      = Exits EXIT_FAILURE (fwrite stderr exit_line w2) /\
      (jpLog__info file func line fmt1 ap1 >>
       jpLog__info file func line fmt2 ap2) w1
      = Returns tt (fwrite stdout info_line (fwrite stdout info_line w1)) /\
      (jpLog__warn file func line fmt1 ap1 >>
       jpLog__warn file func line fmt2 ap2) w1
      = Returns tt (fwrite stderr warn_line (fwrite stderr warn_line w1)).
Proof.
  intros H1 H2.
  exists (log_line (colored_tag INFO) file func line m),
         (log_line (colored_tag WARN) file func line m),
         (log_line (colored_tag EXIT) file func line m).
  intros w1 w2.
  split; [by apply jpLog__info_emits|].
  split; [by apply jpLog__info_emits|].
  split; [by apply jpLog__warn_emits|].
  split; [by apply jpLog__warn_emits|].
  split; [by apply jpLog__exit_emits|].
  split; [by apply jpLog__exit_emits|].
  split; unfold bind.
  - rewrite (jpLog__info_emits _ _ _ _ _ _ w1 H1). by apply jpLog__info_emits.
  - rewrite (jpLog__warn_emits _ _ _ _ _ _ w1 H1). by apply jpLog__warn_emits.
Qed.

(* ===================================================================== *)
(** ** The statements at concrete calls *)
(* ===================================================================== *)

(** [jpLog_infoFmt("value=%d", 42)] at a.c, main, line 10, and
    [jpLog_warn("unexpected token")] at b.c, parse, line 22. *)
Lemma info_warn_write_one_line_witness :
  renders "value=%d" [VInt 42] "value=42" /\
  jpLog__info "a.c" "main" 10 "value=%d" [VInt 42] redirected
  = Returns tt
      (fwrite stdout
         (log_line (colored_tag INFO) "a.c" "main" 10 "value=42") redirected) /\
  renders "%s" [VStr "unexpected token"] "unexpected token" /\
  jpLog_warn site_b "unexpected token" redirected
  = Returns tt
      (fwrite stderr
         (log_line (colored_tag WARN) "b.c" "parse" 22 "unexpected token")
         redirected).
Proof.
  assert (Hr : renders "value=%d" [VInt 42] "value=42")
    by (apply (renders_intro _ _ "value=42"); reflexivity).
  assert (Hr' : renders "%s" [VStr "unexpected token"] "unexpected token")
    by (apply (renders_intro _ _ "unexpected token"); reflexivity).
  split; [exact Hr|]. split; [|split; [exact Hr'|]].
  - exact (proj1 (info_warn_write_one_line site_a _ _ _ redirected Hr)).
  - pose proof (info_warn_write_one_line site_b _ _ _ redirected Hr')
      as (_ & _ & _ & _ & Hplain & _).
    exact (proj2 (Hplain "unexpected token" eq_refl eq_refl)).
Defined.

(** [jpLog_exit("unreachable")] at c.c, init, line 5. *)
Lemma exit_writes_line_then_terminates_witness :
  renders "%s" [VStr "unreachable"] "unreachable" /\
  jpLog__exit "c.c" "init" 5 "%s" [VStr "unreachable"] redirected
  = Exits EXIT_FAILURE
      (fwrite stderr
         (log_line (colored_tag EXIT) "c.c" "init" 5 "unreachable") redirected).
Proof.
  assert (Hr : renders "%s" [VStr "unreachable"] "unreachable")
    by (apply (renders_intro _ _ "unreachable"); reflexivity).
  split; [exact Hr|].
  exact (proj1 (exit_writes_line_then_terminates site_c _ _ _ redirected Hr)).
Defined.

(** A warning written while stderr is a terminal and while it is not. *)
Lemma tag_colored_on_any_stream_witness :
  renders "unexpected token" [] "unexpected token" /\
  jpLog__warn "b.c" "parse" 22 "unexpected token" [] (World [] [] true true ∅)
  = Returns tt
      (fwrite stderr
         (log_line (colored_tag WARN) "b.c" "parse" 22 "unexpected token")
         (World [] [] true true ∅)) /\
  jpLog__warn "b.c" "parse" 22 "unexpected token" [] (World [] [] false false ∅)
  = Returns tt
      (fwrite stderr
         (log_line (colored_tag WARN) "b.c" "parse" 22 "unexpected token")
         (World [] [] false false ∅)).
Proof.
  assert (Hr : renders "unexpected token" [] "unexpected token")
    by (apply (renders_intro _ _ "unexpected token"); reflexivity).
  split; [exact Hr|]. split.
  - exact (proj1 (proj2 (tag_colored_on_any_stream
                           "b.c" "parse" 22 _ _ _ [] [] true true ∅ Hr))).
  - exact (proj1 (proj2 (tag_colored_on_any_stream
                           "b.c" "parse" 22 _ _ _ [] [] false false ∅ Hr))).
Defined.

(** One conversion, two arguments: the second is ignored. *)
Lemma matching_arguments_keep_prefix_witness :
  renders "value=%d" [VInt 42] "value=42" /\
  jpLog__info "a.c" "main" 10 "value=%d" ([VInt 42] ++ [VStr "spare"]) redirected
  = Returns tt
      (fwrite stdout
         (prefix (colored_tag INFO) "a.c" "main" 10 ++ "value=42" ++ [LF])
         redirected).
Proof.
  assert (Hr : renders "value=%d" [VInt 42] "value=42")
    by (apply (renders_intro _ _ "value=42"); reflexivity).
  split; [exact Hr|].
  exact (proj1 (matching_arguments_keep_prefix
                  "a.c" "main" 10 _ _ [VStr "spare"] _ redirected Hr)).
Defined.

(** A message full of conversion specifications. *)
Lemma plain_message_is_not_a_template_witness :
  length (c_str "100%s done, %d left %") < MSGBUFF_SIZE /\
  jpLog_info site_a "100%s done, %d left %" redirected
  = Returns tt
      (fwrite stdout
         (log_line (colored_tag INFO) "a.c" "main" 10 "100%s done, %d left %")
         redirected).
Proof.
  assert (Hlen : length (c_str "100%s done, %d left %") < MSGBUFF_SIZE)
    by (apply Nat.ltb_lt; reflexivity).
  split; [exact Hlen|].
  exact (proj1 (proj2 (proj2 (proj2 (proj2 (proj2
           (plain_message_is_not_a_template site_a _ redirected Hlen))))))).
Defined.

(** The condition [n++] with [n] at 5, under the info guard. *)
Lemma condition_evaluated_twice_unless_exit_witness :
  renders "%s" [VStr "unreachable"] "unreachable" /\
  jpLog_infoFmtIf site_c
    (updates (fun vs => default 0%Z (vs !! "n"))
             (fun vs => <["n" := (default 0 (vs !! "n") + 1)%Z]> vs))
    "%s" [VStr "unreachable"] redirected_n5
  = Returns 6%Z
      (fwrite stdout
         (log_line (colored_tag INFO) "c.c" "init" 5 "unreachable")
         (set_vars {[ "n" := 7%Z ]} redirected_n5)).
Proof.
  assert (Hr : renders "%s" [VStr "unreachable"] "unreachable")
    by (apply (renders_intro _ _ "unreachable"); reflexivity).
  split; [exact Hr|].
  exact (proj1 (condition_evaluated_twice_unless_exit site_c
                  (fun vs => default 0%Z (vs !! "n"))
                  (fun vs => <["n" := (default 0 (vs !! "n") + 1)%Z]> vs)
                  _ _ _ redirected_n5 Hr)).
Defined.

(** The same message through two templates. *)
Lemma emission_deterministic_witness :
  renders "value=%d" [VInt 42] "value=42" /\
  renders "%s" [VStr "value=42"] "value=42" /\
  exists info_line : text,
    jpLog__info "a.c" "main" 10 "value=%d" [VInt 42] redirected
    = Returns tt (fwrite stdout info_line redirected) /\
    jpLog__info "a.c" "main" 10 "%s" [VStr "value=42"] redirected_n5
    = Returns tt (fwrite stdout info_line redirected_n5).
Proof.
  assert (H1 : renders "value=%d" [VInt 42] "value=42")
    by (apply (renders_intro _ _ "value=42"); reflexivity).
  assert (H2 : renders "%s" [VStr "value=42"] "value=42")
    by (apply (renders_intro _ _ "value=42"); reflexivity).
  split; [exact H1|]. split; [exact H2|].
  destruct (emission_deterministic "a.c" "main" 10 _ _ _ _ _ H1 H2)
    as (info_line & warn_line & exit_line & H).
  exists info_line.
  destruct (H redirected redirected_n5) as (Ha & Hb & _).
  split; [exact Ha|exact Hb].
Defined.

(* ===================================================================== *)
(** ** Further properties of jp_log.c: the complete behaviour of a call *)
(* ===================================================================== *)

Lemma jpLog__info_emission (file func : text) (line : Z) (fmt : text)
    (ap : va_list) (w : world) :
  jpLog__info file func line fmt ap w = emission INFO file func line fmt ap w.
Proof.
  unfold emission.
  destruct (format (c_str fmt) ap) as [out|] eqn:Hf.
  - destruct (Nat.ltb_spec (length out) MSGBUFF_SIZE) as [Hlen|Hlen].
    + assert (Hr : renders fmt ap (c_str out)) by (by exists out).
      exact (jpLog__info_emits file func line fmt ap _ w Hr).
    + by destruct (emission_overflow file func line fmt ap out w Hf Hlen)
        as (H & _ & _).
  - by destruct (emission_undefined file func line fmt ap w Hf) as (H & _ & _).
Qed.

Lemma jpLog__warn_emission (file func : text) (line : Z) (fmt : text)
    (ap : va_list) (w : world) :
  jpLog__warn file func line fmt ap w = emission WARN file func line fmt ap w.
Proof.
  unfold emission.
  destruct (format (c_str fmt) ap) as [out|] eqn:Hf.
  - destruct (Nat.ltb_spec (length out) MSGBUFF_SIZE) as [Hlen|Hlen].
    + assert (Hr : renders fmt ap (c_str out)) by (by exists out).
      exact (jpLog__warn_emits file func line fmt ap _ w Hr).
    + by destruct (emission_overflow file func line fmt ap out w Hf Hlen)
        as (_ & H & _).
  - by destruct (emission_undefined file func line fmt ap w Hf) as (_ & H & _).
Qed.

Lemma jpLog__exit_emission (file func : text) (line : Z) (fmt : text)
    (ap : va_list) (w : world) :
  jpLog__exit file func line fmt ap w = emission EXIT file func line fmt ap w.
Proof.
  unfold emission.
  destruct (format (c_str fmt) ap) as [out|] eqn:Hf.
  - destruct (Nat.ltb_spec (length out) MSGBUFF_SIZE) as [Hlen|Hlen].
    + assert (Hr : renders fmt ap (c_str out)) by (by exists out).
      exact (jpLog__exit_emits file func line fmt ap _ w Hr).
    + by destruct (emission_overflow file func line fmt ap out w Hf Hlen)
        as (_ & _ & H).
  - by destruct (emission_undefined file func line fmt ap w Hf) as (_ & _ & H).
Qed.


(** X2.  The longest plain message is 1023 characters: [jpLog_info],
    [jpLog_warn] and [jpLog_exit] have a defined outcome if and only if
    the message is shorter than [MSGBUFF_SIZE]. *)
Theorem plain_message_limit (cs : call_site) (msg : text) (w : world) :
  (jpLog_info cs msg w <> Undefined <-> length (c_str msg) < MSGBUFF_SIZE) /\
  (jpLog_warn cs msg w <> Undefined <-> length (c_str msg) < MSGBUFF_SIZE) /\
  (jpLog_exit cs msg w <> Undefined <-> length (c_str msg) < MSGBUFF_SIZE).
Proof.
  unfold jpLog_info, jpLog_warn, jpLog_exit.
  rewrite jpLog__info_emission, jpLog__warn_emission, jpLog__exit_emission.
  unfold emission. rewrite format_percent_s.
  destruct (Nat.ltb_spec (length (c_str msg)) MSGBUFF_SIZE) as [Hlen|Hlen];
    cbn [finish]; (split; [|split]); split; intros H; try done; lia.
Qed.

(* ===================================================================== *)
(** ** Further properties: streams and the order of lines *)
(* ===================================================================== *)

Lemma fwrite_nil (f : FILE) (w : world) : fwrite f [] w = w.
Proof. destruct w, f; cbn; by rewrite app_nil_r. Qed.

Lemma fwrite_app (f : FILE) (s t : text) (w : world) :
  fwrite f t (fwrite f s w) = fwrite f (s ++ t) w.
Proof. destruct w, f; cbn; by rewrite app_assoc. Qed.

Lemma fwrite_comm (s t : text) (w : world) :
  fwrite stderr t (fwrite stdout s w) = fwrite stdout s (fwrite stderr t w).
Proof. by destruct w. Qed.

(** X3.  A call of [jpLog__info] and a call of [jpLog__warn] commute,
    whatever their arguments: they write to different streams, and if
    either has no defined outcome neither order has. *)
Theorem info_warn_commute (file1 func1 : text) (line1 : Z) (fmt1 : text)
    (ap1 : va_list) (file2 func2 : text) (line2 : Z) (fmt2 : text)
    (ap2 : va_list) (w : world) :
  (jpLog__info file1 func1 line1 fmt1 ap1 >>
   jpLog__warn file2 func2 line2 fmt2 ap2) w
  = (jpLog__warn file2 func2 line2 fmt2 ap2 >>
     jpLog__info file1 func1 line1 fmt1 ap1) w.
Proof.
  unfold bind.
  rewrite (jpLog__info_emission file1 func1 line1 fmt1 ap1 w).
  rewrite (jpLog__warn_emission file2 func2 line2 fmt2 ap2 w).
  unfold emission.
  destruct (format (c_str fmt1) ap1) as [out1|] eqn:Hf1;
    destruct (format (c_str fmt2) ap2) as [out2|] eqn:Hf2;
    try destruct (length out1 <? MSGBUFF_SIZE) eqn:Hl1;
    try destruct (length out2 <? MSGBUFF_SIZE) eqn:Hl2;
    cbn [finish destination];
    rewrite ?jpLog__info_emission, ?jpLog__warn_emission;
    unfold emission; rewrite ?Hf1, ?Hf2, ?Hl1, ?Hl2;
    cbn [finish destination]; reflexivity.
Qed.

Lemma log_entry_emits (e : entry) (w : world) :
  tier e <> EXIT ->
  length (c_str (message e)) < MSGBUFF_SIZE ->
  log_entry e w
  = Returns tt (fwrite (destination (tier e)) (entry_line e) w).
Proof.
  intros Ht Hr%renders_plain. unfold log_entry, entry_line.
  destruct (tier e); [| |done].
  - exact (jpLog__info_emits _ _ _ _ _ _ w Hr).
  - exact (jpLog__warn_emits _ _ _ _ _ _ w Hr).
Qed.

(** X4.  A run of plain info and warn messages, each short enough for
    the buffer, returns having appended to stdout the INFO lines and to
    stderr the WARN lines, each stream in call order and nothing else. *)
Theorem lines_in_call_order (entries : list entry) (w : world) :
  Forall (fun e => tier e <> EXIT /\
                   length (c_str (message e)) < MSGBUFF_SIZE) entries ->
  sequence (log_entry <$> entries) w
  = Returns tt
      (fwrite stderr (stream_text stderr entries)
         (fwrite stdout (stream_text stdout entries) w)).
Proof.
  intros Hall. revert w.
  induction Hall as [|e rest [Ht Hlen] _ IH]; intros w.
  - rewrite fmap_nil. cbn [sequence stream_text]. unfold ret.
    by rewrite !fwrite_nil.
  - rewrite fmap_cons. cbn [sequence stream_text]. unfold bind.
    rewrite (log_entry_emits e w Ht Hlen), IH.
    destruct (tier e) eqn:Htier; [| |done]; cbn [destination same_stream app].
    + by rewrite fwrite_app.
    + by rewrite <- fwrite_comm, fwrite_app.
Qed.

(** X5.  What a call never does, for every input: when [jpLog__info]
    comes to an end it has returned (it never exits), stdout has only
    grown, and stderr, the terminal flags and the caller's variables are
    as before; [jpLog__warn] likewise with the streams exchanged;
    [jpLog__exit] never returns, its status is [EXIT_FAILURE], and it
    leaves stdout and the variables alone. *)
Theorem emission_frame (file func : text) (line : Z) (fmt : text)
    (ap : va_list) (w : world) :
  match jpLog__info file func line fmt ap w with
  | Returns _ w' =>
      written stdout w `prefix_of` written stdout w' /\
      written stderr w' = written stderr w /\
      isatty stdout w' = isatty stdout w /\
      isatty stderr w' = isatty stderr w /\ vars w' = vars w
  | Exits _ _ => False
  | Undefined => True
  end /\
  match jpLog__warn file func line fmt ap w with
  | Returns _ w' =>
      written stderr w `prefix_of` written stderr w' /\
      written stdout w' = written stdout w /\
      isatty stdout w' = isatty stdout w /\
      isatty stderr w' = isatty stderr w /\ vars w' = vars w
  | Exits _ _ => False
  | Undefined => True
  end /\
  match jpLog__exit file func line fmt ap w with
  | Returns _ _ => False
  | Exits status w' =>
      status = EXIT_FAILURE /\
      written stderr w `prefix_of` written stderr w' /\
      written stdout w' = written stdout w /\
      isatty stdout w' = isatty stdout w /\
      isatty stderr w' = isatty stderr w /\ vars w' = vars w
  | Undefined => True
  end.
Proof.
  rewrite jpLog__info_emission, jpLog__warn_emission, jpLog__exit_emission.
  unfold emission.
  destruct (format (c_str fmt) ap) as [out|]; [|done].
  destruct (length out <? MSGBUFF_SIZE); [|done].
  cbn [finish destination fwrite written isatty vars
       stdout_bytes stderr_bytes stdout_isatty stderr_isatty].
  repeat (split; try reflexivity); by eexists.
Qed.

(* ===================================================================== *)
(** ** Further properties: the shape of a line *)
(* ===================================================================== *)

Lemma occurrences_app (c : ascii) (s t : text) :
  occurrences c (s ++ t) = occurrences c s + occurrences c t.
Proof. unfold occurrences. by rewrite filter_app, length_app. Qed.

Lemma occurrences_none (c : ascii) (s : text) : c ∉ s -> occurrences c s = 0.
Proof.
  unfold occurrences. induction s as [|d s IH]; [done|].
  rewrite not_elem_of_cons. intros [Hd Hs].
  rewrite filter_cons_False by congruence. auto.
Qed.

Lemma decimal_no_NUL (z : Z) : NUL ∉ decimal z.
Proof.
  intros H%decimal_chars. cbn [list_ascii_of_string] in H.
  rewrite !elem_of_cons, elem_of_nil in H. unfold NUL in H.
  intuition discriminate.
Qed.

Lemma colored_tag_no_NUL (sev : severity) : NUL ∉ colored_tag sev.
Proof.
  destruct sev;
    unfold colored_tag, color_on, color_off, sgr, tag_name;
    cbn [list_ascii_of_string app];
    rewrite !not_elem_of_cons; unfold NUL, ESC;
    repeat split; try done; apply not_elem_of_nil.
Qed.

Lemma colored_tag_length (sev : severity) : length (colored_tag sev) = 15.
Proof. by destruct sev. Qed.

Lemma log_line_shape (sev : severity) (file func : text) (line : Z) (m : text) :
  NUL ∉ m ->
  line_shape file func line m (log_line (colored_tag sev) file func line m).
Proof.
  intros Hm. unfold line_shape.
  split; [|split; [|split]].
  - unfold log_line. cbn [list_ascii_of_string].
    pose proof (colored_tag_no_NUL sev). pose proof (decimal_no_NUL line).
    pose proof (c_str_no_NUL file). pose proof (c_str_no_NUL func).
    rewrite !not_elem_of_app, !not_elem_of_cons. unfold NUL, LF in *.
    repeat split; try done; apply not_elem_of_nil.
  - rewrite log_line_prefix, app_assoc. apply last_snoc.
  - unfold log_line. cbn [list_ascii_of_string].
    rewrite !length_app, colored_tag_length. cbn [length]. lia.
  - unfold log_line. cbn [list_ascii_of_string].
    rewrite !occurrences_app.
    rewrite (occurrences_none LF (colored_tag sev)) by apply colored_tag_no_LF.
    rewrite (occurrences_none LF (decimal line)) by apply decimal_no_LF.
    assert (Hone : occurrences LF [LF] = 1) by done.
    rewrite Hone.
    assert (H1 : occurrences LF ["["%char] = 0) by done.
    assert (H2 : occurrences LF ["]"%char; "["%char] = 0) by done.
    assert (H3 : occurrences LF ["]"%char; ":"%char; " "%char] = 0) by done.
    rewrite H1, H2, H3. lia.
Qed.

(** X6.  Whenever a message renders within the buffer, the line each of
    the three functions writes has no NUL character in it, ends in a
    newline, is 26 characters longer than its four fields together, with
    a message field of at most 1023 characters, and holds exactly one
    newline more than the file name, the function name and the message
    hold: a message of k newlines makes k + 1 lines. *)
Theorem written_line_shape (file func : text) (line : Z) (fmt : text)
    (ap : va_list) (m : text) (w : world) :
  renders fmt ap m ->
  length m < MSGBUFF_SIZE /\
  exists info_line warn_line exit_line : text,
    jpLog__info file func line fmt ap w
    = Returns tt (fwrite stdout info_line w) /\
    jpLog__warn file func line fmt ap w
    = Returns tt (fwrite stderr warn_line w) /\
    jpLog__exit file func line fmt ap w
    = Exits EXIT_FAILURE (fwrite stderr exit_line w) /\
    line_shape file func line m info_line /\
    line_shape file func line m warn_line /\
    line_shape file func line m exit_line.
Proof.
  intros Hr.
  assert (Hm : (NUL ∉ m) /\ length m < MSGBUFF_SIZE).
  { destruct Hr as (out & _ & Hlen & ->). split; [apply c_str_no_NUL|].
    pose proof (c_str_length out). lia. }
  destruct Hm as [Hnul Hlen]. split; [exact Hlen|].
  exists (log_line (colored_tag INFO) file func line m),
         (log_line (colored_tag WARN) file func line m),
         (log_line (colored_tag EXIT) file func line m).
  split; [exact (jpLog__info_emits _ _ _ _ _ _ w Hr)|].
  split; [exact (jpLog__warn_emits _ _ _ _ _ _ w Hr)|].
  split; [exact (jpLog__exit_emits _ _ _ _ _ _ w Hr)|].
  split; [by apply log_line_shape|].
  split; by apply log_line_shape.
Qed.

(* ===================================================================== *)
(** ** Further properties of jp_log.h: guards inside guards, conditions
       that can be repeated, formats without conversions *)
(* ===================================================================== *)

(** X7.  A guarded form used as the condition of another is expanded
    twice like any condition: with an inner [jpLog_infoIf] under an outer
    [jpLog_warnIf] and a true condition without effects, the INFO line is
    written, then the WARN line, then the INFO line once more, and the
    condition's value is yielded; with a false condition nothing is
    written. *)
Theorem nested_guard_repeats_inner (cs1 cs2 : call_site)
    (f : gmap string Z -> Z) (a b : text) (w : world) :
  length (c_str a) < MSGBUFF_SIZE ->
  length (c_str b) < MSGBUFF_SIZE ->
  let c := f (vars w) in
  let info_line :=
    log_line (colored_tag INFO) (__FILE__ cs1) (__func__ cs1) (__LINE__ cs1)
      (c_str a) in
  let warn_line :=
    log_line (colored_tag WARN) (__FILE__ cs2) (__func__ cs2) (__LINE__ cs2)
      (c_str b) in
  jpLog_warnIf cs2 (jpLog_infoIf cs1 (reads f) a) b w
  = if truth c
    then Returns c
           (fwrite stdout info_line
              (fwrite stderr warn_line (fwrite stdout info_line w)))
    else Returns c w.
Proof.
  intros Ha%renders_plain Hb%renders_plain c info_line warn_line.
  assert (Hi : forall w1, jpLog_info cs1 a w1
                          = Returns tt (fwrite stdout info_line w1))
    by (intros w1; exact (jpLog__info_emits _ _ _ _ _ _ w1 Ha)).
  assert (Hw : forall w1, jpLog_warn cs2 b w1
                          = Returns tt (fwrite stderr warn_line w1))
    by (intros w1; exact (jpLog__warn_emits _ _ _ _ _ _ w1 Hb)).
  assert (Hinner : forall w1, vars w1 = vars w ->
            jpLog_infoIf cs1 (reads f) a w1
            = if truth c then Returns c (fwrite stdout info_line w1)
              else Returns c w1).
  { intros w1 Hv. unfold jpLog_infoIf, bind. unfold reads at 1.
    rewrite Hv. fold c. destruct (truth c); [|unfold reads; by rewrite Hv].
    rewrite Hi. unfold reads. destruct w1; cbn in *. by rewrite Hv. }
  unfold jpLog_warnIf, bind. rewrite (Hinner w eq_refl).
  destruct (truth c) eqn:Hc; rewrite ?Hc.
  - rewrite Hw, Hinner by (by destruct w). reflexivity.
  - exact (Hinner w eq_refl).
Qed.

(** The expansion [(expr) ? (emit, expr) : expr] when evaluating the
    condition a second time changes nothing. *)
Lemma guard_repeatable (emit : M unit) (f : gmap string Z -> Z)
    (g : gmap string Z -> gmap string Z) (w : world) :
  keeps_vars emit ->
  g (g (vars w)) = g (vars w) ->
  f (g (vars w)) = f (vars w) ->
  (let* c := updates f g in if truth c then emit >> updates f g else updates f g) w
  = (let* c := updates f g in if truth c then emit >> ret c else ret c) w.
Proof.
  intros Hk Hg Hf. unfold bind at 1 3. unfold updates at 1 4.
  destruct (truth (f (vars w))).
  - unfold bind.
    destruct (emit (set_vars (g (vars w)) w)) as [[] w'| |] eqn:He; [|done..].
    apply Hk in He. cbn [vars set_vars] in He.
    unfold updates, ret. rewrite He, Hg, Hf. f_equal.
    destruct w'; cbn in *. by rewrite He.
  - unfold updates, ret. cbn [vars set_vars stdout_bytes stderr_bytes
                               stdout_isatty stderr_isatty].
    by rewrite Hg, Hf.
Qed.

(** X8.  When evaluating the condition twice is the same as evaluating it
    once -- its effect on the variables is idempotent and its value is
    unchanged by its own effect, as for an assignment of a constant or a
    plain read -- every guarded form behaves as if the condition were
    evaluated a single time: test it, emit if it is true, yield its
    value. *)
Theorem repeatable_condition_single_evaluation (cs : call_site)
    (f : gmap string Z -> Z) (g : gmap string Z -> gmap string Z)
    (msg fmt : text) (ap : va_list) (w : world) :
  g (g (vars w)) = g (vars w) ->
  f (g (vars w)) = f (vars w) ->
  jpLog_infoIf cs (updates f g) msg w
  = (let* c := updates f g in
     if truth c then jpLog_info cs msg >> ret c else ret c) w /\
  jpLog_infoFmtIf cs (updates f g) fmt ap w
  = (let* c := updates f g in
     if truth c then jpLog_infoFmt cs fmt ap >> ret c else ret c) w /\
  jpLog_warnIf cs (updates f g) msg w
  = (let* c := updates f g in
     if truth c then jpLog_warn cs msg >> ret c else ret c) w /\
  jpLog_warnFmtIf cs (updates f g) fmt ap w
  = (let* c := updates f g in
     if truth c then jpLog_warnFmt cs fmt ap >> ret c else ret c) w /\
  jpLog_exitIf cs (updates f g) msg w
  = (let* c := updates f g in
     if truth c then jpLog_exit cs msg >> ret c else ret c) w /\
  jpLog_exitFmtIf cs (updates f g) fmt ap w
  = (let* c := updates f g in
     if truth c then jpLog_exitFmt cs fmt ap >> ret c else ret c) w.
Proof.
  intros Hg Hf.
  unfold jpLog_infoIf, jpLog_infoFmtIf, jpLog_warnIf, jpLog_warnFmtIf,
    jpLog_exitIf, jpLog_exitFmtIf.
  split; [exact (guard_repeatable (jpLog_info cs msg) f g w
                   (jpLog__info_keeps_vars _ _ _ _ _) Hg Hf)|].
  split; [exact (guard_repeatable (jpLog_infoFmt cs fmt ap) f g w
                   (jpLog__info_keeps_vars _ _ _ _ _) Hg Hf)|].
  split; [exact (guard_repeatable (jpLog_warn cs msg) f g w
                   (jpLog__warn_keeps_vars _ _ _ _ _) Hg Hf)|].
  split; [exact (guard_repeatable (jpLog_warnFmt cs fmt ap) f g w
                   (jpLog__warn_keeps_vars _ _ _ _ _) Hg Hf)|].
  split; [exact (guard_repeatable (jpLog_exit cs msg) f g w
                   (jpLog__exit_keeps_vars _ _ _ _ _) Hg Hf)|].
  exact (guard_repeatable (jpLog_exitFmt cs fmt ap) f g w
           (jpLog__exit_keeps_vars _ _ _ _ _) Hg Hf).
Qed.

Lemma format_no_percent (fmt : text) (ap : va_list) :
  has_percent fmt = false -> format fmt ap = Some fmt.
Proof.
  unfold has_percent. induction fmt as [|c fmt IH]; [done|].
  cbn [existsb format]. rewrite orb_false_iff. intros [Hc Hrest].
  rewrite Ascii.eqb_sym in Hc. rewrite Hc, IH; done.
Qed.

(** X9.  A format string without a percent sign is its own rendering,
    whatever arguments come with it: the formatted macros then do exactly
    what the plain-message macros do with the same text. *)
Theorem format_without_conversions_is_plain (cs : call_site) (fmt : text)
    (ap : va_list) (w : world) :
  has_percent (c_str fmt) = false ->
  jpLog_infoFmt cs fmt ap w = jpLog_info cs fmt w /\
  jpLog_warnFmt cs fmt ap w = jpLog_warn cs fmt w /\
  jpLog_exitFmt cs fmt ap w = jpLog_exit cs fmt w.
Proof.
  intros Hp.
  unfold jpLog_infoFmt, jpLog_warnFmt, jpLog_exitFmt,
    jpLog_info, jpLog_warn, jpLog_exit.
  rewrite !jpLog__info_emission, !jpLog__warn_emission, !jpLog__exit_emission.
  unfold emission.
  by rewrite format_percent_s, (format_no_percent _ ap Hp).
Qed.

(* ===================================================================== *)
(** ** Further properties: what follows an exit *)
(* ===================================================================== *)

Lemma log_entry_exits (e : entry) (w : world) :
  tier e = EXIT ->
  length (c_str (message e)) < MSGBUFF_SIZE ->
  log_entry e w = Exits EXIT_FAILURE (fwrite stderr (entry_line e) w).
Proof.
  intros Ht Hr%renders_plain. unfold log_entry, entry_line. rewrite Ht.
  exact (jpLog__exit_emits _ _ _ _ _ _ w Hr).
Qed.

(** X10.  In a run of plain messages the first [jpLog_exit] is the last
    thing that happens: the info and warn lines before it are on their
    streams in call order, its own line is the last on stderr, the process
    ends with [EXIT_FAILURE], and the calls after it -- whatever they are,
    even ones that could not be rendered -- leave no trace. *)
Theorem exit_ends_the_run (before after : list entry) (e : entry) (w : world) :
  Forall (fun e => tier e <> EXIT /\
                   length (c_str (message e)) < MSGBUFF_SIZE) before ->
  tier e = EXIT ->
  length (c_str (message e)) < MSGBUFF_SIZE ->
  sequence (log_entry <$> (before ++ e :: after)) w
  = Exits EXIT_FAILURE
      (fwrite stderr (stream_text stderr before ++ entry_line e)
         (fwrite stdout (stream_text stdout before) w)).
Proof.
  intros Hall Ht Hlen. revert w.
  induction Hall as [|b rest [Hb Hblen] _ IH]; intros w.
  - cbn [app stream_text]. rewrite fmap_cons. cbn [sequence]. unfold bind.
    by rewrite (log_entry_exits e w Ht Hlen), fwrite_nil.
  - rewrite <- app_comm_cons, fmap_cons. cbn [sequence stream_text].
    unfold bind. rewrite (log_entry_emits b w Hb Hblen), IH.
    destruct (tier b) eqn:Htier; [| |done]; cbn [destination same_stream app].
    + by rewrite fwrite_app.
    + by rewrite <- fwrite_comm, fwrite_app, app_assoc.
Qed.

(* ===================================================================== *)
(** ** The further properties at concrete calls *)
(* ===================================================================== *)

Lemma session_fits :
  Forall (fun e => tier e <> EXIT /\
                   length (c_str (message e)) < MSGBUFF_SIZE) session.
Proof.
  repeat (apply Forall_cons_2;
          [split; [discriminate|apply Nat.ltb_lt; reflexivity]|]).
  apply Forall_nil_2.
Defined.

(** Two info messages around a warning. *)
Lemma lines_in_call_order_witness :
  Forall (fun e => tier e <> EXIT /\
                   length (c_str (message e)) < MSGBUFF_SIZE) session /\
  sequence (log_entry <$> session) redirected
  = Returns tt
      (fwrite stderr (stream_text stderr session)
         (fwrite stdout (stream_text stdout session) redirected)).
Proof.
  split; [exact session_fits|].
  exact (lines_in_call_order session redirected session_fits).
Defined.

(** The line of [jpLog_infoFmt("value=%d", 42)]. *)
Lemma written_line_shape_witness :
  renders "value=%d" [VInt 42] "value=42" /\
  length ("value=42" : text) < MSGBUFF_SIZE.
Proof.
  assert (Hr : renders "value=%d" [VInt 42] "value=42")
    by (apply (renders_intro _ _ "value=42"); reflexivity).
  split; [exact Hr|].
  exact (proj1 (written_line_shape "a.c" "main" 10 _ _ _ redirected Hr)).
Defined.

(** [jpLog_warnIf(jpLog_infoIf(1, "inner"), "outer")]. *)
Lemma nested_guard_repeats_inner_witness :
  length (c_str "inner") < MSGBUFF_SIZE /\
  length (c_str "outer") < MSGBUFF_SIZE /\
  jpLog_warnIf site_b (jpLog_infoIf site_a (reads (fun _ => 1%Z)) "inner")
    "outer" redirected
  = Returns 1%Z
      (fwrite stdout (log_line (colored_tag INFO) "a.c" "main" 10 "inner")
         (fwrite stderr (log_line (colored_tag WARN) "b.c" "parse" 22 "outer")
            (fwrite stdout (log_line (colored_tag INFO) "a.c" "main" 10 "inner")
               redirected))).
Proof.
  assert (Ha : length (c_str "inner") < MSGBUFF_SIZE)
    by (apply Nat.ltb_lt; reflexivity).
  assert (Hb : length (c_str "outer") < MSGBUFF_SIZE)
    by (apply Nat.ltb_lt; reflexivity).
  split; [exact Ha|]. split; [exact Hb|].
  exact (nested_guard_repeats_inner site_a site_b (fun _ => 1%Z)
           "inner" "outer" redirected Ha Hb).
Defined.

(** [jpLog_warnIf((x = 1), "set")]. *)
Lemma repeatable_condition_single_evaluation_witness :
  (<["x" := 1%Z]> (<["x" := 1%Z]> (vars redirected)) : gmap string Z)
  = <["x" := 1%Z]> (vars redirected) /\
  jpLog_warnIf site_b assign_x_1 "set" redirected
  = (let* c := assign_x_1 in
     if truth c then jpLog_warn site_b "set" >> ret c else ret c) redirected.
Proof.
  assert (Hg : (<["x" := 1%Z]> (<["x" := 1%Z]> (vars redirected))
                : gmap string Z)
               = <["x" := 1%Z]> (vars redirected)) by reflexivity.
  split; [exact Hg|].
  exact (proj1 (proj2 (proj2
           (repeatable_condition_single_evaluation site_b
              (fun _ => 1%Z) (fun vs => <["x" := 1%Z]> vs)
              "set" "%s" [VStr "set"] redirected Hg eq_refl)))).
Defined.

(** [jpLog_warnFmt("unexpected token", 7)]. *)
Lemma format_without_conversions_is_plain_witness :
  has_percent (c_str "unexpected token") = false /\
  jpLog_warnFmt site_b "unexpected token" [VInt 7] redirected
  = jpLog_warn site_b "unexpected token" redirected.
Proof.
  split; [reflexivity|].
  exact (proj1 (proj2 (format_without_conversions_is_plain site_b
                         "unexpected token" [VInt 7] redirected eq_refl))).
Defined.

(** The session, a fatal message, and a message too long for the buffer
    after it. *)
Lemma exit_ends_the_run_witness :
  Forall (fun e => tier e <> EXIT /\
                   length (c_str (message e)) < MSGBUFF_SIZE) session /\
  tier fatal = EXIT /\
  length (c_str (message fatal)) < MSGBUFF_SIZE /\
  sequence (log_entry <$> (session ++ fatal :: [Entry INFO site_a long_message]))
    redirected
  = Exits EXIT_FAILURE
      (fwrite stderr (stream_text stderr session ++ entry_line fatal)
         (fwrite stdout (stream_text stdout session) redirected)).
Proof.
  assert (Hlen : length (c_str (message fatal)) < MSGBUFF_SIZE)
    by (apply Nat.ltb_lt; reflexivity).
  split; [exact session_fits|]. split; [reflexivity|]. split; [exact Hlen|].
  exact (exit_ends_the_run session [Entry INFO site_a long_message] fatal
           redirected session_fits eq_refl Hlen).
Defined.
